(** * A shallow embedding of the request pipeline of [src/lib/api-client.ts]

    The development follows the TypeScript source function by function:
    - strings are Rocq [string]s, read as sequences of code units below 256;
    - plain JS objects used as maps (header bags) are [gmap string string];
    - status codes and millisecond durations are integers, [Z]; the
      attempt count, which the loop compares with its index, is a JS number
      that may also be a non-integer or [NaN];
    - promises are their eventual settlement, with a logical clock in
      milliseconds where the code races them against a timer;
    - the transport ([fetch]) is a function of the number of earlier
      invocations, and every call of it is recorded in a trace. *)

From Stdlib Require Import ZArith Ascii String List Bool Lia.
From stdpp Require Import base option strings gmap pretty.

Set Warnings "-register-all".
Local Open Scope string_scope.
Local Open Scope Z_scope.

(* ===================================================================== *)
(** ** String primitives used by the client *)
(* ===================================================================== *)

(** [String.prototype.trim] removes white space and line terminators.  On
    code units below 256 these are TAB, LF, VT, FF, CR, SPACE and NBSP. *)
Definition isTrimSpace (c : ascii) : bool :=
  match nat_of_ascii c with
  | 9%nat | 10%nat | 11%nat | 12%nat | 13%nat | 32%nat | 160%nat => true
  | _ => false
  end.

Definition isSlash (c : ascii) : bool := Ascii.eqb c "/"%char.

(** Remove the longest prefix of characters satisfying [p]. *)
Fixpoint dropLeading (p : ascii -> bool) (s : string) : string :=
  match s with
  | EmptyString => EmptyString
  | String c s' => if p c then dropLeading p s' else s
  end.

(** Remove the longest suffix of characters satisfying [p]. *)
Fixpoint dropTrailing (p : ascii -> bool) (s : string) : string :=
  match s with
  | EmptyString => EmptyString
  | String c s' =>
      match dropTrailing p s' with
      | EmptyString => if p c then EmptyString else String c EmptyString
      | r => String c r
      end
  end.

(** [s.trim()] *)
Definition trim (s : string) : string :=
  dropTrailing isTrimSpace (dropLeading isTrimSpace s).

(** [s.replace(/\/+$/, '')] *)
Definition stripTrailingSlashes (s : string) : string :=
  dropTrailing isSlash s.

(** [s.startsWith(p)] *)
Definition startsWith (p s : string) : bool := String.prefix p s.

(** [s.includes(needle)] *)
Fixpoint includes (needle s : string) : bool :=
  String.prefix needle s ||
  match s with
  | EmptyString => false
  | String _ s' => includes needle s'
  end.

(** A string is falsy in JS exactly when it is empty. *)
Definition truthyStr (s : string) : bool :=
  match s with EmptyString => false | _ => true end.

(** [n] copies of the character [c]. *)
Fixpoint replicate_char (n : nat) (c : ascii) : string :=
  match n with
  | O => EmptyString
  | S n' => String c (replicate_char n' c)
  end.

(** The last character of a string, if any. *)
Fixpoint lastChar (s : string) : option ascii :=
  match s with
  | EmptyString => None
  | String c EmptyString => Some c
  | String _ s' => lastChar s'
  end.

(** Template-literal conversion of an integer-valued number. *)
Definition numToString (n : Z) : string := pretty n.

(* ===================================================================== *)
(** ** Origin resolution *)
(* ===================================================================== *)

(** [resolveBaseUrl()].  The runtime probe [isServer()] and the two
    environment variables are made explicit arguments; [None] is an unset
    variable.
<<
  const serverBase = process.env.API_BASE_URL?.trim();
  const clientBase = process.env.NEXT_PUBLIC_API_BASE_URL?.trim();
  const chosen = (isServer() ? serverBase : clientBase) || '';
  return chosen.replace(/\/+$/, '');
>>
    The later revision of the file additionally logs a warning when the
    result is non-empty and does not start with [http://] or [https://];
    the returned value is the same. *)
Definition resolveBaseUrl (isServer : bool)
    (API_BASE_URL NEXT_PUBLIC_API_BASE_URL : option string) : string :=
  let serverBase := trim <$> API_BASE_URL in
  let clientBase := trim <$> NEXT_PUBLIC_API_BASE_URL in
  let chosen :=
    match (if isServer then serverBase else clientBase) with
    | Some s => if truthyStr s then s else ""
    | None => ""
    end in
  stripTrailingSlashes chosen.

(** The rule as the specification words it: the value of the current
    context is preferred and the other one is the fallback. *)
Definition resolveBaseUrl_spec (isServer : bool)
    (API_BASE_URL NEXT_PUBLIC_API_BASE_URL : option string) : string :=
  let preferred := if isServer then API_BASE_URL else NEXT_PUBLIC_API_BASE_URL in
  let other := if isServer then NEXT_PUBLIC_API_BASE_URL else API_BASE_URL in
  match preferred, other with
  | Some s, _ => stripTrailingSlashes s
  | None, Some s => stripTrailingSlashes s
  | None, None => ""
  end.

(* ===================================================================== *)
(** ** JavaScript values, thrown values and promises *)
(* ===================================================================== *)

(** Values that travel through the client: JSON data and the opaque binary
    containers.  [undefined] is the [None] of an [option JsVal].  Binary
    containers are identified by a handle; their content is never read. *)
Inductive JsVal : Type :=
| VNull
| VBool (b : bool)
| VNum (n : Z)
| VStr (s : string)
| VArr (items : list JsVal)
| VObj (fields : list (string * JsVal))
| VFormData (handle : nat)
| VBlob (handle : nat)
| VArrayBuffer (handle : nat)
| VView (handle : nat).

(** [typeof v === 'object' && v !== null] *)
Definition isNonNullObject (v : JsVal) : bool :=
  match v with
  | VNull | VBool _ | VNum _ | VStr _ => false
  | _ => true
  end.

(** Property read [o[k]] on a decoded JSON object. *)
Fixpoint objGet (k : string) (fields : list (string * JsVal)) : option JsVal :=
  match fields with
  | [] => None
  | (k', v) :: rest => if String.eqb k k' then Some v else objGet k rest
  end.

(** [k in v] for a non-null object [v]: JSON objects own their keys, the
    other containers have no such property. *)
Definition hasProp (k : string) (v : JsVal) : bool :=
  match v with
  | VObj fields => bool_decide (is_Some (objGet k fields))
  | _ => false
  end.

(** [v[k]] *)
Definition getProp (k : string) (v : JsVal) : option JsVal :=
  match v with
  | VObj fields => objGet k fields
  | _ => None
  end.

(** Non-object values that can be thrown. *)
Inductive Primitive : Type :=
| PUndefined | PNull | PBool (b : bool) | PNum (n : Z) | PStr (s : string).

(** What the client can observe of a thrown object: the two [instanceof]
    tests it performs, [name] (when it is a string), [message], [status]
    (when [typeof status === 'number']) and [data]. *)
Record ErrObj : Type := mkErrObj {
  err_instanceofError : bool;
  err_instanceofApiError : bool;
  err_name : option string;
  err_message : string;
  err_status : option Z;
  err_data : option JsVal
}.

Inductive Thrown : Type :=
| ThrownObject (e : ErrObj)
| ThrownPrimitive (p : Primitive).

(** [new Error(message)] *)
Definition newError (message : string) : Thrown :=
  ThrownObject (mkErrObj true false (Some "Error") message None None).

(** [new ApiError(message, status, data)] *)
Definition newApiError (message : string) (status : Z) (data : option JsVal) : Thrown :=
  ThrownObject (mkErrObj true true (Some "ApiError") message (Some status) data).

(** [isApiErrorLike(err)] *)
Definition isApiErrorLike (err : Thrown) : bool :=
  match err with
  | ThrownObject e =>
      err_instanceofApiError e ||
      (bool_decide (err_name e = Some "ApiError") && bool_decide (is_Some (err_status e)))
  | ThrownPrimitive _ => false
  end.

(** [isAbortError(err)] *)
Definition isAbortError (err : Thrown) : bool :=
  match err with
  | ThrownObject e => bool_decide (err_name e = Some "AbortError")
  | ThrownPrimitive _ => false
  end.

(** [err instanceof Error] *)
Definition instanceofError (err : Thrown) : bool :=
  match err with
  | ThrownObject e => err_instanceofError e
  | ThrownPrimitive _ => false
  end.

(** The settlement of a promise. *)
Inductive Settled (A : Type) : Type :=
| Fulfilled (a : A)
| Rejected (e : Thrown).
Arguments Fulfilled {A} a.
Arguments Rejected {A} e.

(** [p.catch(() => undefined)] *)
Definition catchUndefined {A} (p : Settled A) : option A :=
  match p with
  | Fulfilled a => Some a
  | Rejected _ => None
  end.

(** A promise seen from the moment it is created: it settles [at_ms]
    milliseconds later, or never. *)
Inductive Promise (A : Type) : Type :=
| Settles (at_ms : Z) (s : Settled A)
| NeverSettles.
Arguments Settles {A} at_ms s.
Arguments NeverSettles {A}.

(* ===================================================================== *)
(** ** Requests, responses and the runtime *)
(* ===================================================================== *)

Inductive HttpMethod : Type := GET | POST | PUT | PATCH | DELETE.

Definition isGET (m : HttpMethod) : bool :=
  match m with GET => true | _ => false end.

(** Values of the [Query] record; [null] and [undefined] entries are the
    [None] of an [option QueryVal]. *)
Inductive QueryVal : Type :=
| QStr (s : string) | QNum (n : Z) | QBool (b : bool).

(** [String(v)] *)
Definition queryValToString (v : QueryVal) : string :=
  match v with
  | QStr s => s
  | QNum n => numToString n
  | QBool true => "true"
  | QBool false => "false"
  end.

(** A JS number as the attempt count can be: an integer, a finite number
    that is not an integer, given by the integer just below it, or [NaN].
    The infinities are left out: with [attempts = Infinity] the loop has no
    bound. *)
Inductive JsNum : Type :=
| NInt (z : Z)
| NFrac (below : Z)
| NNaN.
Coercion NInt : Z >-> JsNum.

(** [i < a] for an integer [i] *)
Definition ltNum (i : Z) (a : JsNum) : bool :=
  match a with
  | NInt z => i <? z
  | NFrac below => i <=? below
  | NNaN => false
  end.

(** [i <= a] for an integer [i] *)
Definition leNum (i : Z) (a : JsNum) : bool :=
  match a with
  | NInt z => i <=? z
  | NFrac below => i <=? below
  | NNaN => false
  end.

(** [Math.max(1, a)] *)
Definition maxOne (a : JsNum) : JsNum :=
  match a with
  | NInt z => NInt (Z.max 1 z)
  | NFrac below => if 1 <=? below then NFrac below else NInt 1
  | NNaN => NNaN
  end.

(** The number of integers [i >= 1] with [i <= a]: how often the
    condition [attempt <= attempts] of the loop holds. *)
Definition iterations (a : JsNum) : nat :=
  match a with
  | NInt z => Z.to_nat z
  | NFrac below => Z.to_nat below
  | NNaN => O
  end.

(** The number is zero or negative. *)
Definition nonPositive (a : JsNum) : bool :=
  match a with
  | NInt z => z <=? 0
  | NFrac below => below <? 0
  | NNaN => false
  end.

Record RetryOptions : Type := mkRetryOptions {
  retry_attempts : option JsNum;
  retry_backoffMs : option Z;
  retry_retryOn : option (list Z)
}.

Record NextOptions : Type := mkNextOptions {
  revalidate : option (option Z);
  tags : option (list string)
}.

(** [HeadersInit], the declared type of the per-call headers: a plain
    record, a [Headers] instance (given by its entries) or an array of
    name/value pairs. *)
Inductive HeadersInit : Type :=
| HRecord (record : gmap string string)
| HInstance (entries : list (string * string))
| HPairs (pairs : list (string * string)).

(** What the object spread [...headers] copies: the own enumerable
    properties.  A record gives its keys; a [Headers] instance has none; an
    array gives its indices, each holding a pair, which the transport reads
    as the text of the array, [name,value]. *)
Definition spreadHeaders (headers : option HeadersInit) : gmap string string :=
  match headers with
  | None => ∅
  | Some (HRecord record) => record
  | Some (HInstance _) => ∅
  | Some (HPairs pairs) =>
      list_to_map
        (imap (fun i kv => (numToString (Z.of_nat i), fst kv +:+ "," +:+ snd kv)) pairs)
  end.

Record RequestOptions : Type := mkRequestOptions {
  opt_path : string;
  opt_method : option HttpMethod;
  opt_query : option (list (string * option QueryVal));
  opt_body : option JsVal;
  opt_headers : option HeadersInit;
  opt_signal : option nat;
  opt_timeoutMs : option Z;
  opt_cache : option string;
  opt_next : option NextOptions;
  opt_retry : option RetryOptions
}.

(** A completed transport response.  [res_contentType] is
    [res.headers.get('content-type')]; the four body readers are given by
    their settlement. *)
Record Response : Type := mkResponse {
  res_status : Z;
  res_statusText : string;
  res_contentType : option string;
  res_json : Settled JsVal;
  res_text : Settled string;
  res_blob : Settled nat;
  res_formData : Settled nat
}.

(** [res.ok] *)
Definition res_ok (res : Response) : bool :=
  (200 <=? res_status res) && (res_status res <=? 299).

(** The body handed to the transport: the caller's value as it is, or the
    text [JSON.stringify(v)], kept symbolic. *)
Inductive BodyInit : Type :=
| BodyRaw (v : JsVal)
| BodyJsonText (v : JsVal).

(** Header bags live in a store, because [init.headers] and
    [mergedHeaders] are one object. *)
Definition loc := nat.

Record RequestInit : Type := mkRequestInit {
  init_method : HttpMethod;
  init_headers : loc;
  init_signal : option nat;
  init_cache : option string;
  init_next : option NextOptions;
  init_body : option BodyInit
}.

(** [init.body = b] *)
Definition setBody (init : RequestInit) (b : BodyInit) : RequestInit :=
  mkRequestInit (init_method init) (init_headers init) (init_signal init)
                (init_cache init) (init_next init) (Some b).

(** The runtime the client runs in.  [fetch n url init hs] is the
    transport's behaviour at its [n]-th invocation (counted from 0) by this
    call, [hs] being the header bag [init.headers] points to at that
    moment.  [URL_new path base] is the serialisation of
    [new URL(path, base)], or [None] when the constructor throws. *)
Record Runtime : Type := mkRuntime {
  isServer : bool;
  window_location_origin : string;
  has_FormData : bool;
  has_Blob : bool;
  URL_new : string -> string -> option string;
  searchParams_set : string -> string -> string -> string;
  fetch : nat -> string -> RequestInit -> gmap string string -> Promise Response
}.

(** [isMultipartLike(body)] *)
Definition isMultipartLike (rt : Runtime) (body : JsVal) : bool :=
  match body with
  | VFormData _ => has_FormData rt
  | VBlob _ => has_Blob rt
  | VArrayBuffer _ => true
  | VView _ => true
  | _ => false
  end.

(** The singleton's fields. *)
Record ApiClient : Type := mkApiClient {
  baseUrl : string;
  defaultHeaders : gmap string string;
  authToken : option string
}.

(** [new ApiClient(baseUrl)] *)
Definition newApiClient (baseUrl : string) : ApiClient :=
  mkApiClient baseUrl {[ "Content-Type" := "application/json" ]} None.

(** [ApiClient.instance] on first access. *)
Definition instance (rt : Runtime)
    (API_BASE_URL NEXT_PUBLIC_API_BASE_URL : option string) : ApiClient :=
  newApiClient (resolveBaseUrl (isServer rt) API_BASE_URL NEXT_PUBLIC_API_BASE_URL).

(** [setAuth(token)] *)
Definition setAuth (token : option string) (c : ApiClient) : ApiClient :=
  mkApiClient (baseUrl c) (defaultHeaders c) token.

(* ===================================================================== *)
(** ** URL building and the timeout guard *)
(* ===================================================================== *)

(** The [TypeError] of a failing [new URL(...)]. *)
Definition invalidUrlError : Thrown :=
  ThrownObject (mkErrObj true false (Some "TypeError") "Invalid URL" None None).

(** [buildUrl(path, query)] *)
Definition buildUrl (rt : Runtime) (c : ApiClient) (path : string)
    (query : option (list (string * option QueryVal))) : Settled string :=
  let cleanedPath := if startsWith "/" path then path else "/" +:+ path in
  let origin :=
    if truthyStr (baseUrl c) then baseUrl c
    else if isServer rt then "http://localhost"
    else window_location_origin rt in
  match URL_new rt cleanedPath origin with
  | None => Rejected invalidUrlError
  | Some url =>
      Fulfilled
        match query with
        | Some q =>
            fold_left
              (fun u kv =>
                 match snd kv with
                 | Some v => searchParams_set rt u (fst kv) (queryValToString v)
                 | None => u
                 end) q url
        | None => url
        end
  end.

(** The message of the guard's rejection.  [ms] is an integer number of
    milliseconds; up to 2^53 the template literal prints it in decimal, as
    [numToString] does. *)
Definition timeoutMessage (ms : Z) : string :=
  "Request timed out after " +:+ numToString ms +:+ "ms".

(** The largest delay [setTimeout] accepts. *)
Definition TIMEOUT_MAX : Z := 2147483647.

(** The delay [setTimeout(f, ms)] arms for a positive integer [ms]: the
    runtime of the test suite (Node) replaces a delay above [TIMEOUT_MAX]
    by 1 ms. *)
Definition timerDelay (ms : Z) : Z :=
  if TIMEOUT_MAX <? ms then 1 else ms.

(** [withTimeout(p, ms)] for an integer duration; [None] is an absent
    [ms].  With a positive [ms] the timer callback rejects when its delay
    has passed unless [p] has settled by then; a later settlement of [p]
    has no effect on the settled result. *)
Definition withTimeout {A} (p : Promise A) (ms : option Z) : Promise A :=
  match ms with
  | None => p
  | Some ms =>
      if (ms =? 0) || (ms <=? 0) then p
      else
        match p with
        | Settles t s =>
            if t <=? timerDelay ms then Settles t s
            else Settles (timerDelay ms) (Rejected (newError (timeoutMessage ms)))
        | NeverSettles =>
            Settles (timerDelay ms) (Rejected (newError (timeoutMessage ms)))
        end
  end.

(* ===================================================================== *)
(** ** Header merge and body encoding *)
(* ===================================================================== *)

(** [this.authToken ? { Authorization: `Bearer ${this.authToken}` } : {}] *)
Definition authHeaders (c : ApiClient) : gmap string string :=
  match authToken c with
  | Some t => if truthyStr t then {[ "Authorization" := "Bearer " +:+ t ]} else ∅
  | None => ∅
  end.

(** [{ ...this.defaultHeaders, ...auth, ...headers }]: later spreads win. *)
Definition mergeHeaders (c : ApiClient) (headers : option HeadersInit)
    : gmap string string :=
  spreadHeaders headers ∪ (authHeaders c ∪ defaultHeaders c).

(** [c.toLowerCase()] on the letters A to Z. *)
Definition lowerChar (c : ascii) : ascii :=
  let n := nat_of_ascii c in
  if (65 <=? n)%nat && (n <=? 90)%nat then ascii_of_nat (n + 32) else c.

Fixpoint toLowerCase (s : string) : string :=
  match s with
  | EmptyString => EmptyString
  | String c s' => String (lowerChar c) (toLowerCase s')
  end.

(** [new Headers(bag).has(name)], as the transport and the test suite read
    a header bag: header names match whatever their case. *)
Definition headersHas (name : string) (bag : gmap string string) : bool :=
  existsb (fun kv => String.eqb (toLowerCase (fst kv)) (toLowerCase name))
          (map_to_list bag).

(** The header bag a reference points to. *)
Definition deref (h : gmap loc (gmap string string)) (l : loc) : gmap string string :=
  default ∅ (h !! l).

(** The building phase of [request]: [mergedHeaders] is allocated, [init]
    is created pointing to it, then the body is encoded; the [delete]
    happens after [init] exists and is seen through [init.headers]. *)
Definition buildInit (rt : Runtime) (c : ApiClient) (opts : RequestOptions)
    : RequestInit * gmap loc (gmap string string) :=
  let method := default GET (opt_method opts) in
  let mergedHeaders : loc := 0%nat in
  let h : gmap loc (gmap string string) :=
    {[ mergedHeaders := mergeHeaders c (opt_headers opts) ]} in
  let init :=
    mkRequestInit method mergedHeaders (opt_signal opts) (opt_cache opts)
                  (opt_next opts) None in
  match opt_body opts with
  | Some body =>
      if negb (isGET method) then
        if isMultipartLike rt body then
          (setBody init (BodyRaw body), alter (delete "Content-Type") mergedHeaders h)
        else if bool_decide (deref h mergedHeaders !! "Content-Type" = Some "application/json")
        then (setBody init (BodyJsonText body), h)
        else (setBody init (BodyRaw body), h)
      else (init, h)
  | None => (init, h)
  end.

(* ===================================================================== *)
(** ** Response classification *)
(* ===================================================================== *)

(** [res.headers.get('content-type') || ''] *)
Definition contentTypeOf (res : Response) : string :=
  match res_contentType res with
  | Some ct => if truthyStr ct then ct else ""
  | None => ""
  end.

(** [ct.includes('application/json')] *)
Definition declaresJson (res : Response) : bool :=
  includes "application/json" (contentTypeOf res).

Definition mapSettled {A B} (f : A -> B) (p : Settled A) : Settled B :=
  match p with
  | Fulfilled a => Fulfilled (f a)
  | Rejected e => Rejected e
  end.

(** The best-effort payload of a failed response:
<<
  const data = isJson
    ? await res.json().catch(() => undefined)
    : await res.text().catch(() => undefined);
>> *)
Definition errorData (res : Response) : option JsVal :=
  if declaresJson res then catchUndefined (res_json res)
  else VStr <$> catchUndefined (res_text res).

(** The first assignment to [message]:
<<
  if (isJson && typeof data === 'object' && data !== null && 'message' in data) {
    const maybeMsg = (data as { message?: unknown }).message;
    message = typeof maybeMsg === 'string' ? maybeMsg : undefined;
  }
>> *)
Definition messageField (isJson : bool) (data : option JsVal) : option string :=
  match data with
  | Some d =>
      if isJson && isNonNullObject d && hasProp "message" d then
        match getProp "message" d with
        | Some (VStr m) => Some m
        | _ => None
        end
      else None
  | None => None
  end.

(** [!message] for [message : string | undefined] *)
Definition falsyMessage (message : option string) : bool :=
  match message with
  | Some m => negb (truthyStr m)
  | None => true
  end.

(** The second assignment:
<<
  if (!message) {
    message = typeof data === 'string' ? data : res.statusText;
  }
>> *)
Definition messageAfterFallback (message : option string) (data : option JsVal)
    (res : Response) : string :=
  if falsyMessage message then
    match data with
    | Some (VStr s) => s
    | _ => res_statusText res
    end
  else default "" message.

(** [message || `HTTP ${res.status}`] *)
Definition finalMessage (res : Response) : string :=
  let data := errorData res in
  let message := messageAfterFallback (messageField (declaresJson res) data) data res in
  if truthyStr message then message else "HTTP " +:+ numToString (res_status res).

(** [new ApiError(message || `HTTP ${res.status}`, res.status, data)] *)
Definition apiErrorOf (res : Response) : Thrown :=
  newApiError (finalMessage res) (res_status res) (errorData res).

(** Success decoding as written inline in [src/lib/api-client.ts]:
<<
  const ct = res.headers.get('content-type') || '';
  if (ct.includes('application/json')) return (await res.json()) as TResponse;
  return (await res.text()) as unknown as TResponse;
>> *)
Definition parseJsonOrText (res : Response) : Settled JsVal :=
  if declaresJson res then res_json res
  else mapSettled VStr (res_text res).

(** [parseResponse(res)] of the later revision of the client. *)
Definition parseResponse (res : Response) : Settled JsVal :=
  let contentType := contentTypeOf res in
  if includes "application/json" contentType then res_json res
  else if includes "application/octet-stream" contentType
          || includes "image/" contentType
          || includes "video/" contentType
          || includes "audio/" contentType
          || includes "application/pdf" contentType
  then mapSettled VBlob (res_blob res)
  else if includes "multipart/form-data" contentType
  then mapSettled VFormData (res_formData res)
  else mapSettled VStr (res_text res).

(* ===================================================================== *)
(** ** The attempt loop *)
(* ===================================================================== *)

(** What the caller of [request] observes. *)
Inductive Outcome : Type :=
| Returns (v : JsVal)
| Throws (e : Thrown)
| Hangs.

(** Observable effects, in order. *)
Inductive Event : Type :=
| EvFetch (url : string) (init : RequestInit) (headers : gmap string string)
| EvSleep (delay : Z).

(** How the [try] block of an iteration ends. *)
Inductive TryResult : Type :=
| TryReturn (v : JsVal)
| TryThrow (err : Thrown)
| TryContinue (delay : Z)
| TryPending.

(** How one iteration of the [for] loop ends. *)
Inductive Step : Type :=
| StepReturn (v : JsVal)
| StepThrow (e : Thrown)
| StepContinue (delay : Z) (lastError : option Thrown)
| StepPending.

(** How the loop as a whole ends; [LoopExit] is leaving it through its
    condition, which leads to the trailing [throw]. *)
Inductive Completion : Type :=
| CReturn (v : JsVal)
| CThrow (e : Thrown)
| CPending
| CLoopExit (lastError : option Thrown).

Section AttemptLoop.
Variable decode : Response -> Settled JsVal.
Variable rt : Runtime.
Variable url : string.
Variable init : RequestInit.
Variable h : gmap loc (gmap string string).
Variable timeoutMs : Z.
Variable attempts : JsNum.
Variable backoffMs : Z.
Variable retryOn : gset Z.

(** [backoffMs * Math.pow(2, attempt - 1)] *)
Definition backoffDelay (attempt : Z) : Z := backoffMs * 2 ^ (attempt - 1).

(** The [catch] block, entered with [err]. *)
Definition catchBlock (attempt : Z) (err : Thrown) : Step :=
  if ltNum attempt attempts && negb (isApiErrorLike err) && negb (isAbortError err)
  then StepContinue (backoffDelay attempt) (Some err)
  else StepThrow err.

(** The [try] block, [p] being the promise [this.doFetch(url, init)]
    returned: it returns, throws, reaches its [continue] or never gets
    past an [await]. *)
Definition tryBlock (attempt : Z) (p : Promise Response) : TryResult :=
  match withTimeout p (Some timeoutMs) with
  | NeverSettles => TryPending
  | Settles _ (Rejected err) => TryThrow err
  | Settles _ (Fulfilled res) =>
      if negb (res_ok res) then
        if ltNum attempt attempts && bool_decide (res_status res ∈ retryOn)
        then TryContinue (backoffDelay attempt)
        else TryThrow (apiErrorOf res)
      else
        match decode res with
        | Fulfilled v => TryReturn v
        | Rejected err => TryThrow err
        end
  end.

(** One iteration: the [try] block, and the [catch] block for what it
    throws.  [lastError] is assigned in the [catch] block only. *)
Definition iteration (attempt : Z) (lastError : option Thrown)
    (p : Promise Response) : Step :=
  match tryBlock attempt p with
  | TryReturn v => StepReturn v
  | TryThrow err => catchBlock attempt err
  | TryContinue delay => StepContinue delay lastError
  | TryPending => StepPending
  end.

(** [this.doFetch(url, init)] at the given attempt; it is the
    [(attempt - 1)]-th invocation of the transport by this call. *)
Definition doFetch (attempt : Z) : Promise Response :=
  fetch rt (Z.to_nat (attempt - 1)) url init (deref h (init_headers init)).

(** [for (let attempt = 1; attempt <= attempts; attempt++) { ... }],
    by recursion on the number [remaining] of iterations left, that is
    of indices from [attempt] on that satisfy [attempt <= attempts]: the
    condition fails exactly when it is [0]. *)
Fixpoint attemptLoop (remaining : nat) (attempt : Z) (lastError : option Thrown)
    : Completion * list Event :=
  match remaining with
  | O => (CLoopExit lastError, [])
  | S remaining' =>
      let ev := EvFetch url init (deref h (init_headers init)) in
      match iteration attempt lastError (doFetch attempt) with
      | StepReturn v => (CReturn v, [ev])
      | StepThrow e => (CThrow e, [ev])
      | StepPending => (CPending, [ev])
      | StepContinue delay lastError' =>
          let r := attemptLoop remaining' (attempt + 1) lastError' in
          (fst r, ev :: EvSleep delay :: snd r)
      end
  end.
End AttemptLoop.

(** The statement after the loop:
    [throw lastError instanceof Error ? lastError : new Error('Unknown API error')] *)
Definition trailingThrow (lastError : option Thrown) : Thrown :=
  match lastError with
  | Some e => if instanceofError e then e else newError "Unknown API error"
  | None => newError "Unknown API error"
  end.

Definition outcomeOf (c : Completion) : Outcome :=
  match c with
  | CReturn v => Returns v
  | CThrow e => Throws e
  | CPending => Hangs
  | CLoopExit lastError => Throws (trailingThrow lastError)
  end.

Definition defaultRetryOn : list Z := [408; 429; 500; 502; 503; 504].

(** [Math.max(1, retry?.attempts ?? 1)] *)
Definition resolveAttempts (retry : option RetryOptions) : JsNum :=
  maxOne (default (NInt 1) (retry ≫= retry_attempts)).

(** [retry?.backoffMs ?? 300] *)
Definition resolveBackoffMs (retry : option RetryOptions) : Z :=
  default 300 (retry ≫= retry_backoffMs).

(** [new Set(retry?.retryOn ?? [408, 429, 500, 502, 503, 504])] *)
Definition resolveRetryOn (retry : option RetryOptions) : gset Z :=
  list_to_set (default defaultRetryOn (retry ≫= retry_retryOn)).

(** [timeoutMs = 15_000] in the parameter destructuring. *)
Definition resolveTimeoutMs (opts : RequestOptions) : Z :=
  default 15000 (opt_timeoutMs opts).

(** [request(options)], for a given success decoder.  The result is what
    the caller observes together with the trace of transport calls and
    back-off waits. *)
Definition requestWith (decode : Response -> Settled JsVal)
    (rt : Runtime) (c : ApiClient) (opts : RequestOptions) : Outcome * list Event :=
  match buildUrl rt c (opt_path opts) (opt_query opts) with
  | Rejected e => (Throws e, [])
  | Fulfilled url =>
      let ih := buildInit rt c opts in
      let attempts := resolveAttempts (opt_retry opts) in
      let r :=
        attemptLoop decode rt url (fst ih) (snd ih) (resolveTimeoutMs opts)
          attempts (resolveBackoffMs (opt_retry opts)) (resolveRetryOn (opt_retry opts))
          (iterations attempts) 1 None in
      (outcomeOf (fst r), snd r)
  end.

(** [request] of [src/lib/api-client.ts]. *)
Definition request : Runtime -> ApiClient -> RequestOptions -> Outcome * list Event :=
  requestWith parseJsonOrText.

(** [request] of the later revision, which decodes with [parseResponse]. *)
Definition request_enhanced : Runtime -> ApiClient -> RequestOptions -> Outcome * list Event :=
  requestWith parseResponse.

(** Number of transport invocations in a trace. *)
Fixpoint fetchCount (tr : list Event) : nat :=
  match tr with
  | [] => O
  | EvFetch _ _ _ :: tr' => S (fetchCount tr')
  | EvSleep _ :: tr' => fetchCount tr'
  end.

(** The first event of a trace is a transport call. *)
Definition startsWithFetch (tr : list Event) : bool :=
  match tr with
  | EvFetch _ _ _ :: _ => true
  | _ => false
  end.

(* ===================================================================== *)
(** ** Fixtures: the mocks of the test suite *)
(* ===================================================================== *)

(** [fetchMock] with a queue of once-only behaviours. *)
Definition fetchMock (queue : list (Promise Response))
    : nat -> string -> RequestInit -> gmap string string -> Promise Response :=
  fun n _ _ _ => default NeverSettles (queue !! n).

(** A runtime whose URL constructor concatenates origin and path. *)
Definition mockRuntime (server : bool) (queue : list (Promise Response)) : Runtime :=
  mkRuntime server "https://app.example.com" true true
    (fun path origin => Some (origin +:+ path))
    (fun u k v => u +:+ "?" +:+ k +:+ "=" +:+ v)
    (fetchMock queue).

(** A response whose body is the JSON text [text] of the value [v]. *)
Definition jsonRes (status : Z) (v : JsVal) (text : string) : Response :=
  mkResponse status "" (Some "application/json")
    (Fulfilled v) (Fulfilled text) (Fulfilled 0%nat) (Fulfilled 0%nat).

(** A response whose body [text] is not JSON: [res.json()] rejects. *)
Definition syntaxError : Thrown :=
  ThrownObject (mkErrObj true false (Some "SyntaxError") "Unexpected end of JSON input" None None).

Definition textRes (status : Z) (statusText : string) (contentType : option string)
    (text : string) : Response :=
  mkResponse status statusText contentType
    (Rejected syntaxError) (Fulfilled text) (Fulfilled 0%nat) (Fulfilled 0%nat).

(** [{ path }] *)
Definition emptyOptions (path : string) : RequestOptions :=
  mkRequestOptions path None None None None None None None None None.

(** [{ ...opts, retry: r }] *)
Definition withRetryOptions (r : RetryOptions) (opts : RequestOptions) : RequestOptions :=
  mkRequestOptions (opt_path opts) (opt_method opts) (opt_query opts) (opt_body opts)
    (opt_headers opts) (opt_signal opts) (opt_timeoutMs opts) (opt_cache opts)
    (opt_next opts) (Some r).

(** [{ ...opts, retry: { attempts } }] *)
Definition withRetry (attempts : Z) (opts : RequestOptions) : RequestOptions :=
  withRetryOptions (mkRetryOptions (Some (NInt attempts)) None None) opts.

(** [{ ...opts, timeoutMs: ms }] *)
Definition withTimeoutMs (ms : option Z) (opts : RequestOptions) : RequestOptions :=
  mkRequestOptions (opt_path opts) (opt_method opts) (opt_query opts) (opt_body opts)
    (opt_headers opts) (opt_signal opts) ms (opt_cache opts)
    (opt_next opts) (opt_retry opts).

(** The singleton of a process with no base URL configured. *)
Definition client0 : ApiClient := newApiClient "".

(** [{ ok: true }] *)
Definition okTrue : JsVal := VObj [("ok", VBool true)].

(** The same retry policy with another [attempts]. *)
Definition setAttempts (n : Z) (r : RetryOptions) : RetryOptions :=
  mkRetryOptions (Some (NInt n)) (retry_backoffMs r) (retry_retryOn r).

(* ===================================================================== *)
(** ** Attempts that a call performs *)
(* ===================================================================== *)

Section Reachability.
Variable decode : Response -> Settled JsVal.
Variable rt : Runtime.
Variable url : string.
Variable init : RequestInit.
Variable h : gmap loc (gmap string string).
Variable timeoutMs : Z.
Variable attempts : JsNum.
Variable backoffMs : Z.
Variable retryOn : gset Z.

(** [reaches remaining attempt lastError pre]: the loop of a call gets to
    the head of the iteration numbered [attempt], with [remaining]
    iterations left and the given [lastError], after the events [pre]. *)
Inductive reaches : nat -> Z -> option Thrown -> list Event -> Prop :=
| reaches_start : reaches (iterations attempts) 1 None []
| reaches_next remaining attempt lastError pre delay lastError' :
    reaches (S remaining) attempt lastError pre ->
    iteration decode timeoutMs attempts backoffMs retryOn attempt lastError
      (doFetch rt url init h attempt) = StepContinue delay lastError' ->
    reaches remaining (attempt + 1) lastError'
      (pre ++ [EvFetch url init (deref h (init_headers init)); EvSleep delay]).
End Reachability.

(** Every transport call of a trace satisfies [P]. *)
Definition allFetches (P : string -> RequestInit -> gmap string string -> Prop)
    (tr : list Event) : Prop :=
  Forall (fun ev => match ev with
                    | EvFetch u i hs => P u i hs
                    | EvSleep _ => True
                    end) tr.

(** The promise has not settled [ms] milliseconds after its creation. *)
Definition notSettledWithin {A} (ms : Z) (p : Promise A) : Prop :=
  match p with
  | Settles t _ => ms < t
  | NeverSettles => True
  end.

(* ===================================================================== *)
(** ** The rest of the client: wrappers, singleton, later revision *)
(* ===================================================================== *)

(** The options bag [opts] of the convenience wrappers.  Each field is
    [None] when the bag has no such key.  The declared types leave out the
    keys a wrapper sets itself ([path] and [method], and [query] or [body]
    where it takes them as arguments), but the spread reads whatever keys
    the object has. *)
Record CallOptions : Type := mkCallOptions {
  co_path : option string;
  co_method : option HttpMethod;
  co_query : option (list (string * option QueryVal));
  co_body : option JsVal;
  co_headers : option HeadersInit;
  co_signal : option nat;
  co_timeoutMs : option Z;
  co_cache : option string;
  co_next : option NextOptions;
  co_retry : option RetryOptions
}.

(** [x] overridden by the key of the bag, if it has it. *)
Definition spreadOver {A} (x : option A) (fromBag : option A) : option A :=
  match fromBag with
  | Some v => Some v
  | None => x
  end.

(** [{ path, method, query, body, ...(opts ?? {}) }]: the keys of the bag
    come last and win. *)
Definition spreadOptions (path : string) (method : HttpMethod)
    (query : option (list (string * option QueryVal))) (body : option JsVal)
    (opts : option CallOptions) : RequestOptions :=
  mkRequestOptions
    (default path (opts ≫= co_path))
    (spreadOver (Some method) (opts ≫= co_method))
    (spreadOver query (opts ≫= co_query))
    (spreadOver body (opts ≫= co_body))
    (opts ≫= co_headers) (opts ≫= co_signal) (opts ≫= co_timeoutMs)
    (opts ≫= co_cache) (opts ≫= co_next) (opts ≫= co_retry).

Section Wrappers.
Variable decode : Response -> Settled JsVal.
Variable rt : Runtime.
Variable c : ApiClient.

(** [get(path, query, opts)] *)
Definition get (path : string) (query : option (list (string * option QueryVal)))
    (opts : option CallOptions) : Outcome * list Event :=
  requestWith decode rt c (spreadOptions path GET query None opts).

(** [post(path, body, opts)] *)
Definition post (path : string) (body : option JsVal) (opts : option CallOptions)
    : Outcome * list Event :=
  requestWith decode rt c (spreadOptions path POST None body opts).

(** [put(path, body, opts)] *)
Definition put (path : string) (body : option JsVal) (opts : option CallOptions)
    : Outcome * list Event :=
  requestWith decode rt c (spreadOptions path PUT None body opts).

(** [patch(path, body, opts)] *)
Definition patch (path : string) (body : option JsVal) (opts : option CallOptions)
    : Outcome * list Event :=
  requestWith decode rt c (spreadOptions path PATCH None body opts).

(** [delete(path, opts)] *)
Definition delete_ (path : string) (opts : option CallOptions) : Outcome * list Event :=
  requestWith decode rt c (spreadOptions path DELETE None None opts).
End Wrappers.

(** The static getter [ApiClient.instance], [st] being the static field
    [_instance]: the client is built on the first access only. *)
Definition instance_get (st : option ApiClient) (rt : Runtime)
    (API_BASE_URL NEXT_PUBLIC_API_BASE_URL : option string)
    : ApiClient * option ApiClient :=
  match st with
  | Some c => (c, Some c)
  | None =>
      let c := instance rt API_BASE_URL NEXT_PUBLIC_API_BASE_URL in
      (c, Some c)
  end.

(** What a module can do with the singleton: read the getter under some
    runtime and environment, or call [setAuth] on the object it got. *)
Inductive ClientOp : Type :=
| OpInstance (rt : Runtime) (API_BASE_URL NEXT_PUBLIC_API_BASE_URL : option string)
| OpSetAuth (token : option string).

Definition clientStep (st : option ApiClient) (op : ClientOp) : option ApiClient :=
  match op with
  | OpInstance rt e1 e2 => snd (instance_get st rt e1 e2)
  | OpSetAuth token => setAuth token <$> st
  end.

(** The double-quote character. *)
Definition dquote : string := String (ascii_of_nat 34) EmptyString.

(** [/^https?:\/\//.test(s)] *)
Definition hasHttpScheme (s : string) : bool :=
  startsWith "http://" s || startsWith "https://" s.

(** [resolveBaseUrl()] of the later revision, with the lines it writes
    through [console.warn]. *)
Definition resolveBaseUrl_validated (isServer : bool)
    (API_BASE_URL NEXT_PUBLIC_API_BASE_URL : option string) : string * list string :=
  let serverBase := trim <$> API_BASE_URL in
  let clientBase := trim <$> NEXT_PUBLIC_API_BASE_URL in
  let chosen :=
    match (if isServer then serverBase else clientBase) with
    | Some s => if truthyStr s then s else ""
    | None => ""
    end in
  let cleaned := stripTrailingSlashes chosen in
  if truthyStr cleaned && negb (hasHttpScheme cleaned) then
    let envVar := if isServer then "API_BASE_URL" else "NEXT_PUBLIC_API_BASE_URL" in
    (cleaned,
     ["[ApiClient] Invalid base URL format in " +:+ envVar +:+ ": " +:+ dquote
      +:+ cleaned +:+ dquote +:+ ". Expected format: https://api.example.com"])
  else (cleaned, []).

(** [log(message, data)] of the later revision: the [console.log] lines,
    [debug] being [process.env.NODE_ENV === 'development']. *)
Definition log (debug : bool) (message data : string) : list (string * string) :=
  if debug then [("[ApiClient] " +:+ message, data)] else [].

(** [setAuth(token)] of the later revision, with its log lines. *)
Definition setAuth_logged (debug : bool) (token : option string) (c : ApiClient)
    : ApiClient * list (string * string) :=
  (setAuth token c,
   log debug "Auth token updated:"
     (match token with
      | Some t => if truthyStr t then "[REDACTED]" else "cleared"
      | None => "cleared"
      end)).

(** The trace of [k] transport calls from attempt [a] on, with the
    back-off wait between consecutive ones. *)
Fixpoint retryTrace (ev : Event) (backoffMs : Z) (a : Z) (k : nat) : list Event :=
  match k with
  | O => []
  | S O => [ev]
  | S k' => ev :: EvSleep (backoffMs * 2 ^ (a - 1)) :: retryTrace ev backoffMs (a + 1) k'
  end.

(** What the [try] block of the last attempt of a run says about the
    result of the run. *)
Definition endsWith (r : TryResult) (c : Completion) : Prop :=
  match r with
  | TryReturn v => c = CReturn v
  | TryThrow e => c = CThrow e
  | TryPending => c = CPending
  | TryContinue _ => False
  end.

(** The entries of a query that carry a value. *)
Definition presentEntries (q : list (string * option QueryVal))
    : list (string * option QueryVal) :=
  filter (fun kv => is_Some (snd kv)) q.

(** The first character of a string, if any. *)
Definition firstChar (s : string) : option ascii :=
  match s with
  | EmptyString => None
  | String c _ => Some c
  end.

(* ===================================================================== *)
(** * Properties *)
(* ===================================================================== *)

(** ** Strings *)

(** stdpp keeps [String.append] from unfolding under [simpl]. *)
Ltac str_simpl :=
  cbv beta iota delta [String.append] in *; fold String.append in *.

Lemma dropTrailing_slashes (s : string) :
  exists n : nat, s = dropTrailing isSlash s +:+ replicate_char n "/".
Proof.
  induction s as [|c s IH]; simpl.
  - exists O. reflexivity.
  - destruct IH as [n Hn].
    destruct (dropTrailing isSlash s) as [|d r] eqn:E.
    + destruct (isSlash c) eqn:Ec.
      * apply Ascii.eqb_eq in Ec. subst c. exists (S n).
        simpl. str_simpl. congruence.
      * exists n. str_simpl. congruence.
    + exists n. str_simpl. congruence.
Qed.

Lemma dropTrailing_last (p : ascii -> bool) (s : string) (c : ascii) :
  lastChar (dropTrailing p s) = Some c -> p c = false.
Proof.
  induction s as [|a s IH]; simpl; [discriminate|].
  destruct (dropTrailing p s) as [|d r] eqn:E.
  - destruct (p a) eqn:Ea; simpl; [discriminate|].
    intros [= <-]. exact Ea.
  - intros H. apply IH. exact H.
Qed.

Lemma stripTrailingSlashes_no_slash (s : string) :
  lastChar (stripTrailingSlashes s) <> Some "/"%char.
Proof.
  intros H. apply dropTrailing_last in H. discriminate H.
Qed.

(** ** Origin resolution *)

Example resolveBaseUrl_ex1 :
  resolveBaseUrl true (Some " https://api.example.com// ") None = "https://api.example.com".
Proof. reflexivity. Qed.

(** C2, as stated, fails: on the server with only the public variable set
    the code returns the empty string, where the rule with a fallback
    returns the public value. *)
Lemma C2_no_fallback :
  resolveBaseUrl true None (Some "https://public.example.com") = ""
  /\ resolveBaseUrl_spec true None (Some "https://public.example.com")
     = "https://public.example.com"
  /\ resolveBaseUrl false (Some "https://api.example.com") None = "".
Proof. repeat split; reflexivity. Qed.

(** C2, amended: the result is determined by the variable of the current
    context alone (server-only on the server, public otherwise), trimmed;
    it is empty when that variable is unset, whatever the other one holds;
    and it is that value with every trailing slash removed. *)
Theorem C2_resolveBaseUrl_rule (server : bool) (s p : option string) :
  let chosen := default "" (trim <$> (if server then s else p)) in
  resolveBaseUrl server s p = stripTrailingSlashes chosen
  /\ resolveBaseUrl true None p = ""
  /\ resolveBaseUrl false s None = ""
  /\ (exists n : nat, chosen = resolveBaseUrl server s p +:+ replicate_char n "/")
  /\ lastChar (resolveBaseUrl server s p) <> Some "/"%char.
Proof.
  intros chosen.
  assert (E : resolveBaseUrl server s p = stripTrailingSlashes chosen).
  { unfold resolveBaseUrl, chosen.
    destruct server, s as [x|], p as [y|]; simpl; try reflexivity;
      match goal with |- context [truthyStr ?t] => destruct t; reflexivity end. }
  split; [exact E|].
  split; [reflexivity|].
  split; [reflexivity|].
  rewrite E. split.
  - apply dropTrailing_slashes.
  - apply stripTrailingSlashes_no_slash.
Qed.

(** ** The scenarios of the test suite, run on the model *)

Example scenario_retry_then_success :
  request
    (mockRuntime true
       [Settles 5 (Fulfilled (jsonRes 500 (VObj [("error", VStr "server busy")]) "{}"));
        Settles 5 (Fulfilled (jsonRes 200 okTrue "{}"))])
    client0 (withRetry 2 (emptyOptions "/sometimes-works"))
  = (Returns okTrue,
     [EvFetch "http://localhost/sometimes-works"
        (mkRequestInit GET 0%nat None None None None)
        {[ "Content-Type" := "application/json" ]};
      EvSleep 300;
      EvFetch "http://localhost/sometimes-works"
        (mkRequestInit GET 0%nat None None None None)
        {[ "Content-Type" := "application/json" ]}]).
Proof. vm_compute. reflexivity. Qed.

Example scenario_no_retry_on_404 :
  let r := request
    (mockRuntime true [Settles 5 (Fulfilled (jsonRes 404 (VObj [("error", VStr "nope")]) "{}"))])
    client0 (withRetry 2 (emptyOptions "/never-retry")) in
  fst r = Throws (newApiError "HTTP 404" 404 (Some (VObj [("error", VStr "nope")])))
  /\ fetchCount (snd r) = 1%nat.
Proof. vm_compute. split; reflexivity. Qed.

Example scenario_timeout :
  let r := request (mockRuntime true [NeverSettles]) client0
             (withTimeoutMs (Some 25) (emptyOptions "/hangs")) in
  fst r = Throws (newError "Request timed out after 25ms")
  /\ fetchCount (snd r) = 1%nat.
Proof. vm_compute. split; reflexivity. Qed.

Example scenario_json_message :
  fst (request
    (mockRuntime true
       [Settles 5 (Fulfilled (jsonRes 400 (VObj [("message", VStr "Bad stuff happened")]) "{}"))])
    client0 (emptyOptions "/oops"))
  = Throws (newApiError "Bad stuff happened" 400
              (Some (VObj [("message", VStr "Bad stuff happened")]))).
Proof. vm_compute. reflexivity. Qed.

Example scenario_text_error :
  fst (request
    (mockRuntime true
       [Settles 5 (Fulfilled (textRes 500 "" (Some "text/plain") "Internal fail"))])
    client0 (emptyOptions "/fail"))
  = Throws (newApiError "Internal fail" 500 (Some (VStr "Internal fail"))).
Proof. vm_compute. reflexivity. Qed.

(** ** The attempt loop *)

Section LoopFacts.
Variable decode : Response -> Settled JsVal.
Variable rt : Runtime.
Variable url : string.
Variable init : RequestInit.
Variable h : gmap loc (gmap string string).
Variable timeoutMs : Z.
Variable attempts : JsNum.
Variable backoffMs : Z.
Variable retryOn : gset Z.

Local Abbreviation loop := (attemptLoop decode rt url init h timeoutMs attempts backoffMs retryOn).
Local Abbreviation try_ := (tryBlock decode timeoutMs attempts backoffMs retryOn).
Local Abbreviation iter_ := (iteration decode timeoutMs attempts backoffMs retryOn).
Local Abbreviation catch_ := (catchBlock attempts backoffMs).
Local Abbreviation fetch_ := (doFetch rt url init h).
Local Abbreviation ev := (EvFetch url init (deref h (init_headers init))).
Local Abbreviation reaches_ := (reaches decode rt url init h timeoutMs attempts backoffMs retryOn).

Lemma catchBlock_continue_inv a err d le :
  catch_ a err = StepContinue d le ->
  ltNum a attempts = true /\ d = backoffDelay backoffMs a /\ le = Some err
  /\ isApiErrorLike err = false /\ isAbortError err = false.
Proof.
  unfold catchBlock.
  destruct (ltNum a attempts) eqn:Ea, (isApiErrorLike err), (isAbortError err);
    simpl; try discriminate.
  intros [= <- <-]. auto.
Qed.

Lemma catchBlock_not_return a err v : catch_ a err <> StepReturn v.
Proof. unfold catchBlock. now destruct (_ && _). Qed.

Lemma isApiErrorLike_newApiError m st d : isApiErrorLike (newApiError m st d) = true.
Proof. reflexivity. Qed.

Lemma catchBlock_apiError a m st d :
  catch_ a (newApiError m st d) = StepThrow (newApiError m st d).
Proof.
  unfold catchBlock. rewrite isApiErrorLike_newApiError.
  now rewrite andb_false_r.
Qed.

Lemma catchBlock_no_retry a err :
  isAbortError err = true \/ isApiErrorLike err = true ->
  catch_ a err = StepThrow err.
Proof.
  unfold catchBlock. intros [-> | ->]; simpl.
  - now rewrite andb_false_r.
  - now rewrite andb_false_r.
Qed.

Lemma tryBlock_continue_inv a p d :
  try_ a p = TryContinue d ->
  ltNum a attempts = true /\ d = backoffDelay backoffMs a.
Proof.
  unfold tryBlock.
  destruct (withTimeout p (Some timeoutMs)) as [t [res|err]|]; try discriminate.
  destruct (negb (res_ok res)).
  - destruct (ltNum a attempts) eqn:Ea; simpl; [|discriminate].
    destruct (bool_decide _); [|discriminate].
    intros [= <-]. auto.
  - destruct (decode res); discriminate.
Qed.

Lemma iteration_continue_inv a le p d le' :
  iter_ a le p = StepContinue d le' ->
  ltNum a attempts = true /\ d = backoffDelay backoffMs a.
Proof.
  unfold iteration.
  destruct (try_ a p) as [v|err|d'|] eqn:E; try discriminate.
  - intros H. apply catchBlock_continue_inv in H. tauto.
  - intros [= <- _]. now apply tryBlock_continue_inv in E.
Qed.

(** What the [try] block does with a completed response. *)
Lemma tryBlock_response a p t res :
  withTimeout p (Some timeoutMs) = Settles t (Fulfilled res) ->
  try_ a p =
    if negb (res_ok res) then
      if ltNum a attempts && bool_decide (res_status res ∈ retryOn)
      then TryContinue (backoffDelay backoffMs a)
      else TryThrow (apiErrorOf res)
    else match decode res with
         | Fulfilled v => TryReturn v
         | Rejected err => TryThrow err
         end.
Proof. unfold tryBlock. now intros ->. Qed.

Lemma iteration_throw_no_retry a le p err :
  try_ a p = TryThrow err ->
  isAbortError err = true \/ isApiErrorLike err = true ->
  iter_ a le p = StepThrow err.
Proof.
  intros E H. unfold iteration. rewrite E. now apply catchBlock_no_retry.
Qed.

Lemma attemptLoop_S n a le :
  loop (S n) a le =
  match iter_ a le (fetch_ a) with
  | StepReturn v => (CReturn v, [ev])
  | StepThrow e => (CThrow e, [ev])
  | StepPending => (CPending, [ev])
  | StepContinue d le' =>
      (fst (loop n (a + 1) le'), ev :: EvSleep d :: snd (loop n (a + 1) le'))
  end.
Proof. reflexivity. Qed.

Lemma attemptLoop_starts n a le : startsWithFetch (snd (loop (S n) a le)) = true.
Proof. rewrite attemptLoop_S. now destruct (iter_ a le (fetch_ a)). Qed.

(** Every transport call of the loop gets the same [url], the same
    [init] and the header bag [init.headers] points to. *)
Lemma attemptLoop_events n : forall a le,
  allFetches (fun u i hs => u = url /\ i = init /\ hs = deref h (init_headers init))
             (snd (loop n a le)).
Proof.
  unfold allFetches.
  induction n as [|n IH]; intros a le.
  - constructor.
  - rewrite attemptLoop_S.
    destruct (iter_ a le (fetch_ a)); simpl; repeat constructor; auto.
Qed.

(** For an integer attempt count [z], with [remaining = z - attempt + 1]
    iterations left and at least one of them, the loop is never left
    through its condition. *)
Lemma attemptLoop_no_exit (z : Z) n : forall a le le',
  attempts = NInt z ->
  Z.of_nat (S n) = z - a + 1 ->
  fst (loop (S n) a le) <> CLoopExit le'.
Proof.
  induction n as [|n IH]; intros a le le' Hz Hn; rewrite attemptLoop_S;
    destruct (iter_ a le (fetch_ a)) as [v|e|d l|] eqn:E; simpl; try discriminate.
  - apply iteration_continue_inv in E as [E _]. rewrite Hz in E.
    apply Z.ltb_lt in E. lia.
  - apply IH; [exact Hz | lia].
Qed.

Lemma leNum_iterations (i : Z) :
  1 <= i -> leNum i attempts = true -> i <= Z.of_nat (iterations attempts).
Proof.
  destruct attempts as [z|below|]; simpl; try discriminate;
    intros Hi H; apply Z.leb_le in H; lia.
Qed.

Lemma ltNum_leNum_succ (i z : Z) :
  attempts = NInt z -> ltNum i attempts = true -> leNum (i + 1) attempts = true.
Proof.
  intros ->. simpl. intros H. apply Z.ltb_lt in H. apply Z.leb_le. lia.
Qed.

Lemma attemptLoop_fetchCount_one a le :
  fetchCount (snd (loop 1 a le)) = 1%nat.
Proof.
  rewrite attemptLoop_S.
  now destruct (iter_ a le (fetch_ a)).
Qed.

Lemma reaches_inv n a le pre :
  reaches_ n a le pre ->
  1 <= a /\ Z.of_nat n = Z.of_nat (iterations attempts) - a + 1.
Proof.
  induction 1 as [|n a le pre d le' _ [IH1 IH2] _].
  - lia.
  - lia.
Qed.

(** The run of the whole loop factors through every iteration it gets to. *)
Lemma reaches_run n a le pre :
  reaches_ n a le pre ->
  loop (iterations attempts) 1 None = (fst (loop n a le), (pre ++ snd (loop n a le))%list).
Proof.
  induction 1 as [|n a le pre d le' _ IH Hstep].
  - simpl. now destruct (loop _ _ _).
  - rewrite IH, attemptLoop_S, Hstep. simpl.
    now rewrite <- app_assoc.
Qed.
End LoopFacts.

(** A request whose URL could be built is the run of the loop from attempt
    1, with the policy read from the options. *)
Lemma requestWith_run decode rt c opts url :
  buildUrl rt c (opt_path opts) (opt_query opts) = Fulfilled url ->
  let attempts := resolveAttempts (opt_retry opts) in
  let r := attemptLoop decode rt url (fst (buildInit rt c opts)) (snd (buildInit rt c opts))
             (resolveTimeoutMs opts) attempts (resolveBackoffMs (opt_retry opts))
             (resolveRetryOn (opt_retry opts)) (iterations attempts) 1 None in
  requestWith decode rt c opts = (outcomeOf (fst r), snd r).
Proof. intros Hurl. unfold requestWith. now rewrite Hurl. Qed.

(** ** Retry on HTTP status *)

(** C1, as stated, fails: the retry set is consulted for non-success
    responses only.  A 200 response listed in [retryOn] ends the call at
    once with its payload; and a 200 response outside the set whose body
    cannot be decoded is followed by one more attempt, the call ending
    without any classified error. *)
Lemma C1_success_status_counterexample :
  request
    (mockRuntime true [Settles 5 (Fulfilled (jsonRes 200 okTrue "{}"));
                       Settles 5 (Fulfilled (jsonRes 200 okTrue "{}"))])
    client0
    (withRetryOptions (mkRetryOptions (Some (NInt 2)) None (Some [200])) (emptyOptions "/x"))
  = (Returns okTrue,
     [EvFetch "http://localhost/x" (mkRequestInit GET 0%nat None None None None)
        {[ "Content-Type" := "application/json" ]}])
  /\ (let r := request
        (mockRuntime true
           [Settles 5 (Fulfilled (textRes 200 "" (Some "application/json") ""));
            Settles 5 (Fulfilled (jsonRes 200 okTrue "{}"))])
        client0 (withRetry 2 (emptyOptions "/x")) in
      fst r = Returns okTrue /\ fetchCount (snd r) = 2%nat).
Proof. vm_compute. repeat split; reflexivity. Qed.

(** C1, amended: when an attempt that the call performs completes with a
    response, then: for a non-success response (status outside 200..299),
    (a) if the attempt index is below the attempt count and the status is
    in the retry set, the call waits [backoffMs * 2^(attempt-1)] and goes
    back to the loop condition, the rest of the run being the run from the
    next index: the next attempt is issued when [attempt + 1 <= attempts],
    which is always so for an integer attempt count; (b) if the status is
    not in the retry set, the call ends there, throwing the [ApiError]
    built from the response, with no further transport call; and for a
    success response whose body decodes, the call ends with the decoded
    value whatever the retry set holds. *)
Theorem C1_retry_on_status
    (decode : Response -> Settled JsVal) (rt : Runtime) (url : string)
    (init : RequestInit) (h : gmap loc (gmap string string))
    (timeoutMs : Z) (attempts : JsNum) (backoffMs : Z) (retryOn : gset Z)
    (remaining : nat) (attempt : Z) (lastError : option Thrown)
    (pre : list Event) (t : Z) (res : Response) :
  reaches decode rt url init h timeoutMs attempts backoffMs retryOn
    (S remaining) attempt lastError pre ->
  withTimeout (doFetch rt url init h attempt) (Some timeoutMs) = Settles t (Fulfilled res) ->
  let run := attemptLoop decode rt url init h timeoutMs attempts backoffMs retryOn in
  let ev := EvFetch url init (deref h (init_headers init)) in
  (res_ok res = false ->
     (ltNum attempt attempts = true -> res_status res ∈ retryOn ->
        let rest := run remaining (attempt + 1) lastError in
        run (iterations attempts) 1 None
        = (fst rest, (pre ++ ev :: EvSleep (backoffMs * 2 ^ (attempt - 1)) :: snd rest)%list)
        /\ (leNum (attempt + 1) attempts = true -> startsWithFetch (snd rest) = true)
        /\ (forall z : Z, attempts = NInt z -> startsWithFetch (snd rest) = true))
     /\ (res_status res ∉ retryOn ->
        run (iterations attempts) 1 None = (CThrow (apiErrorOf res), (pre ++ [ev])%list)))
  /\ (res_ok res = true ->
      forall v, decode res = Fulfilled v ->
        run (iterations attempts) 1 None = (CReturn v, (pre ++ [ev])%list)).
Proof.
  intros Hreach Hres run ev.
  pose proof (reaches_inv _ _ _ _ _ _ _ _ _ _ _ _ _ Hreach) as [Ha Hrem].
  pose proof (reaches_run _ _ _ _ _ _ _ _ _ _ _ _ _ Hreach) as Hrun.
  pose proof (tryBlock_response decode timeoutMs attempts backoffMs retryOn attempt
                _ t res Hres) as Htry.
  split.
  - intros Hok. rewrite Hok in Htry. simpl in Htry. split.
    + intros Hlt Hin rest.
      assert (Hit : iteration decode timeoutMs attempts backoffMs retryOn attempt lastError
                      (doFetch rt url init h attempt)
                    = StepContinue (backoffMs * 2 ^ (attempt - 1)) lastError).
      { unfold iteration. rewrite Htry, Hlt.
        rewrite bool_decide_eq_true_2 by exact Hin. reflexivity. }
      assert (Hnext : leNum (attempt + 1) attempts = true ->
                      startsWithFetch (snd rest) = true).
      { intros Hle. apply leNum_iterations in Hle; [|lia].
        destruct remaining as [|k]; [lia|]. apply attemptLoop_starts. }
      split; [|split].
      * unfold run. rewrite Hrun, attemptLoop_S, Hit. reflexivity.
      * exact Hnext.
      * intros z Hz. apply Hnext. exact (ltNum_leNum_succ _ _ _ Hz Hlt).
    + intros Hnotin.
      unfold run. rewrite Hrun, attemptLoop_S.
      unfold iteration. rewrite Htry.
      rewrite bool_decide_eq_false_2 by exact Hnotin.
      rewrite andb_false_r. unfold apiErrorOf. rewrite catchBlock_apiError.
      reflexivity.
  - intros Hok v Hv. rewrite Hok, Hv in Htry. simpl in Htry.
    unfold run. rewrite Hrun, attemptLoop_S. unfold iteration. rewrite Htry.
    reflexivity.
Qed.

(** C1 at work: a 503 on the first of three attempts is retried after
    300 ms, and the 404 that follows ends the call. *)
Lemma C1_retry_on_status_witness :
  let res404 := jsonRes 404 (VObj [("error", VStr "nope")]) "{}" in
  let rt := mockRuntime true
              [Settles 5 (Fulfilled (jsonRes 503 (VObj []) "{}"));
               Settles 5 (Fulfilled res404)] in
  let init := mkRequestInit GET 0%nat None None None None in
  let run := attemptLoop parseJsonOrText rt "http://localhost/x" init ∅ 15000 (NInt 3) 300
               (list_to_set defaultRetryOn) in
  let ev := EvFetch "http://localhost/x" init ∅ in
  let rest := run 2%nat 2 None in
  (run 3%nat 1 None = (fst rest, [ev; EvSleep 300] ++ snd rest)%list
   /\ startsWithFetch (snd rest) = true)
  /\ run 3%nat 1 None = (CThrow (apiErrorOf res404), [ev; EvSleep 300; ev]).
Proof.
  intros res404 rt init run ev rest.
  pose (start := reaches_start parseJsonOrText rt "http://localhost/x" init ∅ 15000
                   (NInt 3) 300 (list_to_set defaultRetryOn)).
  split.
  - destruct (proj1 (proj1 (C1_retry_on_status parseJsonOrText rt "http://localhost/x"
              init ∅ 15000 (NInt 3) 300 (list_to_set defaultRetryOn) 2%nat 1 None [] 5
              (jsonRes 503 (VObj []) "{}") start eq_refl) eq_refl) eq_refl
              ltac:(vm_compute; reflexivity)) as (H1 & _ & H3).
    split; [exact H1 | exact (H3 3 eq_refl)].
  - refine (proj2 (proj1 (C1_retry_on_status parseJsonOrText rt "http://localhost/x"
              init ∅ 15000 (NInt 3) 300 (list_to_set defaultRetryOn) 1%nat 2 None
              [ev; EvSleep 300] 5 res404 _ eq_refl) eq_refl) _).
    + exact (reaches_next parseJsonOrText rt "http://localhost/x" init ∅ 15000 (NInt 3) 300
               (list_to_set defaultRetryOn) 2%nat 1 None [] 300 None start eq_refl).
    + vm_compute. intros H. discriminate H.
Defined.

(** ** Failures that are never retried *)

(** C6: when the [try] block of an attempt that the call performs throws
    an error named [AbortError], or an error shaped like an [ApiError],
    the call throws that very error and the trace ends with the transport
    call of that attempt, whatever the number of attempts left. *)
Theorem C6_no_retry_on_abort_or_api_error
    (decode : Response -> Settled JsVal) (rt : Runtime) (url : string)
    (init : RequestInit) (h : gmap loc (gmap string string))
    (timeoutMs : Z) (attempts : JsNum) (backoffMs : Z) (retryOn : gset Z)
    (remaining : nat) (attempt : Z) (lastError : option Thrown)
    (pre : list Event) (err : Thrown) :
  reaches decode rt url init h timeoutMs attempts backoffMs retryOn
    (S remaining) attempt lastError pre ->
  tryBlock decode timeoutMs attempts backoffMs retryOn attempt
    (doFetch rt url init h attempt) = TryThrow err ->
  isAbortError err = true \/ isApiErrorLike err = true ->
  attemptLoop decode rt url init h timeoutMs attempts backoffMs retryOn
    (iterations attempts) 1 None
  = (CThrow err, (pre ++ [EvFetch url init (deref h (init_headers init))])%list).
Proof.
  intros Hreach Htry Herr.
  rewrite (reaches_run _ _ _ _ _ _ _ _ _ _ _ _ _ Hreach), attemptLoop_S.
  rewrite (iteration_throw_no_retry _ _ _ _ _ _ _ _ _ Htry Herr).
  reflexivity.
Qed.

(** The abort test of the suite: [AbortError] on the first of two attempts. *)
Lemma C6_no_retry_on_abort_witness :
  let abortErr := ThrownObject (mkErrObj true false (Some "AbortError") "aborted" None None) in
  let rt := mockRuntime true [Settles 1 (Rejected abortErr);
                              Settles 5 (Fulfilled (jsonRes 200 okTrue "{}"))] in
  let init := mkRequestInit GET 0%nat None None None None in
  attemptLoop parseJsonOrText rt "http://localhost/aborted" init ∅ 15000 (NInt 2) 300
    (list_to_set defaultRetryOn) 2%nat 1 None
  = (CThrow abortErr, [EvFetch "http://localhost/aborted" init ∅]).
Proof.
  intros abortErr rt init.
  refine (C6_no_retry_on_abort_or_api_error parseJsonOrText rt "http://localhost/aborted"
            init ∅ 15000 (NInt 2) 300 (list_to_set defaultRetryOn) 1%nat 1 None [] abortErr _ _ _).
  - exact (reaches_start parseJsonOrText rt "http://localhost/aborted" init ∅ 15000 (NInt 2) 300
             (list_to_set defaultRetryOn)).
  - reflexivity.
  - left. reflexivity.
Defined.

(** ** The timeout guard *)

Lemma withTimeout_disabled {A} (p : Promise A) (ms : Z) :
  ms <= 0 -> withTimeout p (Some ms) = p.
Proof.
  intros H. unfold withTimeout.
  destruct (ms =? 0) eqn:E0; simpl; [reflexivity|].
  apply Z.leb_le in H. now rewrite H.
Qed.

Lemma withTimeout_expires {A} (p : Promise A) (ms : Z) :
  0 < ms -> notSettledWithin (timerDelay ms) p ->
  withTimeout p (Some ms)
  = Settles (timerDelay ms) (Rejected (newError (timeoutMessage ms))).
Proof.
  intros Hpos Hp. unfold withTimeout.
  replace (ms =? 0) with false by (symmetry; apply Z.eqb_neq; lia).
  replace (ms <=? 0) with false by (symmetry; apply Z.leb_gt; lia).
  simpl. destruct p as [t s|]; [|reflexivity].
  simpl in Hp.
  replace (t <=? timerDelay ms) with false by (symmetry; apply Z.leb_gt; lia).
  reflexivity.
Qed.

Lemma timerDelay_small (ms : Z) : ms <= TIMEOUT_MAX -> timerDelay ms = ms.
Proof.
  intros H. unfold timerDelay.
  now replace (TIMEOUT_MAX <? ms) with false by (symmetry; apply Z.ltb_ge; lia).
Qed.

Lemma timeout_error_retryable (ms : Z) :
  isApiErrorLike (newError (timeoutMessage ms)) = false
  /\ isAbortError (newError (timeoutMessage ms)) = false.
Proof. split; reflexivity. Qed.

(** C3, as stated, fails for an absent duration: a call that passes no
    [timeoutMs] is guarded with 15000 ms, so a transport that never settles
    makes it reject instead of waiting for ever; only a duration of zero
    leaves the call without a deadline. *)
Lemma C3_absent_timeout_counterexample :
  request (mockRuntime true [NeverSettles]) client0 (emptyOptions "/hangs")
  = (Throws (newError "Request timed out after 15000ms"),
     [EvFetch "http://localhost/hangs" (mkRequestInit GET 0%nat None None None None)
        {[ "Content-Type" := "application/json" ]}])
  /\ request (mockRuntime true [NeverSettles]) client0
       (withTimeoutMs (Some 0) (emptyOptions "/hangs"))
  = (Hangs,
     [EvFetch "http://localhost/hangs" (mkRequestInit GET 0%nat None None None None)
        {[ "Content-Type" := "application/json" ]}]).
Proof. vm_compute. split; reflexivity. Qed.

Lemma requestWith_default_timeout decode rt c opts :
  opt_timeoutMs opts = None ->
  requestWith decode rt c opts = requestWith decode rt c (withTimeoutMs (Some 15000) opts).
Proof.
  destruct opts as [pa me qu bo he si ti ca ne re]; simpl.
  intros ->. reflexivity.
Qed.

(** C3, amended (durations are integers): the guard passes the promise
    through when its duration is absent, zero or negative; a call that
    gives no [timeoutMs] is guarded with 15000 ms; with a duration [N <= 0]
    an attempt whose transport never settles leaves the call pending for
    ever; and for a positive [N] up to 2^53, when the transport has not
    settled after the delay the timer is armed with ([N] itself up to
    2^31-1, 1 ms above), the attempt is rejected with the message
    [Request timed out after {N}ms], the transport having been invoked once
    for it: the call throws that error if [attempt < attempts] is false,
    and otherwise waits the back-off and goes back to the loop condition,
    issuing the next attempt when [attempt + 1 <= attempts], which is
    always so for an integer attempt count. *)
Theorem C3_timeout_guard
    (decode : Response -> Settled JsVal) (rt : Runtime) (c : ApiClient)
    (opts : RequestOptions) (url : string)
    (init : RequestInit) (h : gmap loc (gmap string string))
    (attempts : JsNum) (backoffMs : Z) (retryOn : gset Z)
    (remaining : nat) (attempt : Z) (lastError : option Thrown)
    (pre : list Event) (N : Z) (p : Promise Response) :
  let run := attemptLoop decode rt url init h N attempts backoffMs retryOn in
  let ev := EvFetch url init (deref h (init_headers init)) in
  let e := newError ("Request timed out after " +:+ numToString N +:+ "ms") in
  withTimeout p None = p
  /\ (N <= 0 -> withTimeout p (Some N) = p)
  /\ (0 < N <= 2 ^ 53 -> notSettledWithin (timerDelay N) p ->
      withTimeout p (Some N) = Settles (timerDelay N) (Rejected e))
  /\ (N <= 2147483647 -> timerDelay N = N)
  /\ (2147483647 < N -> timerDelay N = 1)
  /\ (opt_timeoutMs opts = None ->
      requestWith decode rt c opts
      = requestWith decode rt c (withTimeoutMs (Some 15000) opts))
  /\ (N <= 0 ->
      reaches decode rt url init h N attempts backoffMs retryOn
        (S remaining) attempt lastError pre ->
      doFetch rt url init h attempt = NeverSettles ->
      run (iterations attempts) 1 None = (CPending, (pre ++ [ev])%list))
  /\ (0 < N <= 2 ^ 53 ->
      reaches decode rt url init h N attempts backoffMs retryOn
        (S remaining) attempt lastError pre ->
      notSettledWithin (timerDelay N) (doFetch rt url init h attempt) ->
      (ltNum attempt attempts = false ->
         run (iterations attempts) 1 None = (CThrow e, (pre ++ [ev])%list))
      /\ (ltNum attempt attempts = true ->
         let rest := run remaining (attempt + 1) (Some e) in
         run (iterations attempts) 1 None
         = (fst rest,
            (pre ++ ev :: EvSleep (backoffMs * 2 ^ (attempt - 1)) :: snd rest)%list)
         /\ (leNum (attempt + 1) attempts = true -> startsWithFetch (snd rest) = true)
         /\ (forall z : Z, attempts = NInt z -> startsWithFetch (snd rest) = true))).
Proof.
  intros run ev e.
  split; [reflexivity|].
  split; [apply withTimeout_disabled|].
  split; [intros [H _]; now apply withTimeout_expires|].
  split; [apply timerDelay_small|].
  split; [intros H; unfold timerDelay;
          now replace (TIMEOUT_MAX <? N) with true by (symmetry; apply Z.ltb_lt; exact H)|].
  split; [apply requestWith_default_timeout|].
  split.
  - intros HN Hreach Hp.
    unfold run. rewrite (reaches_run _ _ _ _ _ _ _ _ _ _ _ _ _ Hreach), attemptLoop_S.
    unfold iteration, tryBlock. rewrite Hp, withTimeout_disabled by exact HN.
    reflexivity.
  - intros [HN _] Hreach Hp.
    pose proof (reaches_inv _ _ _ _ _ _ _ _ _ _ _ _ _ Hreach) as [Ha Hrem].
    pose proof (reaches_run _ _ _ _ _ _ _ _ _ _ _ _ _ Hreach) as Hrun.
    assert (Htry : tryBlock decode N attempts backoffMs retryOn attempt
                     (doFetch rt url init h attempt) = TryThrow e).
    { unfold tryBlock. now rewrite withTimeout_expires. }
    split.
    + intros Hlast. unfold run. rewrite Hrun, attemptLoop_S.
      unfold iteration. rewrite Htry. unfold catchBlock. rewrite Hlast.
      reflexivity.
    + intros Hlt rest.
      assert (Hnext : leNum (attempt + 1) attempts = true ->
                      startsWithFetch (snd rest) = true).
      { intros Hle. apply leNum_iterations in Hle; [|lia].
        destruct remaining as [|k]; [lia|]. apply attemptLoop_starts. }
      split; [|split].
      * unfold run. rewrite Hrun, attemptLoop_S.
        unfold iteration. rewrite Htry. unfold catchBlock. rewrite Hlt.
        reflexivity.
      * exact Hnext.
      * intros z Hz. apply Hnext. exact (ltNum_leNum_succ _ _ _ Hz Hlt).
Qed.

(** The timeout test of the suite: a transport that hangs, 25 ms. *)
Lemma C3_timeout_guard_witness :
  let rt := mockRuntime true [NeverSettles] in
  let init := mkRequestInit GET 0%nat None None None None in
  withTimeout (fetch rt 0%nat "http://localhost/hangs" init ∅) (Some 25)
  = Settles 25 (Rejected (newError "Request timed out after 25ms"))
  /\ attemptLoop parseJsonOrText rt "http://localhost/hangs" init ∅ 25 (NInt 1) 300
       (list_to_set defaultRetryOn) 1%nat 1 None
     = (CThrow (newError "Request timed out after 25ms"),
        [EvFetch "http://localhost/hangs" init ∅]).
Proof.
  intros rt init.
  pose proof (C3_timeout_guard parseJsonOrText rt client0 (emptyOptions "/hangs")
                "http://localhost/hangs" init ∅ (NInt 1) 300 (list_to_set defaultRetryOn)
                0%nat 1 None [] 25 (fetch rt 0%nat "http://localhost/hangs" init ∅))
    as (_ & _ & Hguard & _ & _ & _ & _ & Hcall).
  split.
  - apply Hguard; [lia | exact I].
  - refine (proj1 (Hcall _ _ _) _).
    + lia.
    + exact (reaches_start parseJsonOrText rt "http://localhost/hangs" init ∅ 25 (NInt 1)
               300 (list_to_set defaultRetryOn)).
    + exact I.
    + reflexivity.
Defined.

(** ** Success classification and decoding *)

Lemma res_ok_range (res : Response) :
  res_ok res = true <-> 200 <= res_status res <= 299.
Proof.
  unfold res_ok. rewrite andb_true_iff, !Z.leb_le. reflexivity.
Qed.

(** C4, as stated, fails.  In the later revision a 200 response that
    declares JSON and whose body does not parse makes the call throw the
    parse error, so a status in 200..299 does not make the call succeed.
    In [src/lib/api-client.ts] there are moreover only two decoders: an
    [image/png] success response is decoded as text, not as a blob. *)
Lemma C4_undecodable_success_counterexample :
  request_enhanced
    (mockRuntime true [Settles 5 (Fulfilled (textRes 200 "" (Some "application/json") ""))])
    client0 (emptyOptions "/x")
  = (Throws syntaxError,
     [EvFetch "http://localhost/x" (mkRequestInit GET 0%nat None None None None)
        {[ "Content-Type" := "application/json" ]}])
  /\ fst (request
       (mockRuntime true
          [Settles 5 (Fulfilled (mkResponse 200 "" (Some "image/png") (Rejected syntaxError)
                                   (Fulfilled "PNG") (Fulfilled 7%nat) (Fulfilled 0%nat)))])
       client0 (emptyOptions "/x"))
     = Returns (VStr "PNG").
Proof. vm_compute. split; reflexivity. Qed.

(** What the iteration does with a completed response, for any decoder. *)
Lemma iteration_return_iff decode timeoutMs attempts backoffMs retryOn
    attempt lastError p t res (v : JsVal) :
  withTimeout p (Some timeoutMs) = Settles t (Fulfilled res) ->
  iteration decode timeoutMs attempts backoffMs retryOn attempt lastError p = StepReturn v
  <-> 200 <= res_status res <= 299 /\ decode res = Fulfilled v.
Proof.
  intros Hres. rewrite <- res_ok_range. unfold iteration.
  rewrite (tryBlock_response decode timeoutMs attempts backoffMs retryOn
             attempt p t res Hres).
  destruct (res_ok res); simpl.
  - destruct (decode res) as [w|err].
    + split; [intros [= ->]; auto | intros [_ [= ->]]; reflexivity].
    + split; [intros H; now apply catchBlock_not_return in H | intros [_ H]; discriminate].
  - split; [|intros [H _]; discriminate].
    destruct (_ && _); [discriminate|].
    intros H. now apply catchBlock_not_return in H.
Qed.

(** C4, amended: for a completed response, in both revisions of the
    client, the attempt ends the call with a value [v] exactly when the
    status is in 200..299 and the decoder of that revision fulfils with
    [v] (a decoder that rejects is handled as a thrown error).  The decoder
    is chosen by substring tests on the declared content type.  In the
    later revision ([parseResponse]), in this order: [application/json]
    gives [res.json()]; otherwise [application/octet-stream], [image/],
    [video/], [audio/] or [application/pdf] give [res.blob()]; otherwise
    [multipart/form-data] gives [res.formData()]; otherwise [res.text()].
    In [src/lib/api-client.ts]: [application/json] gives [res.json()],
    anything else [res.text()]. *)
Theorem C4_success_iff_2xx_and_decoded
    (timeoutMs : Z) (attempts : JsNum) (backoffMs : Z) (retryOn : gset Z)
    (attempt : Z) (lastError : option Thrown) (p : Promise Response)
    (t : Z) (res : Response) :
  withTimeout p (Some timeoutMs) = Settles t (Fulfilled res) ->
  let ct := contentTypeOf res in
  let binary :=
    includes "application/octet-stream" ct || includes "image/" ct
    || includes "video/" ct || includes "audio/" ct || includes "application/pdf" ct in
  (forall v : JsVal,
     iteration parseResponse timeoutMs attempts backoffMs retryOn attempt lastError p
     = StepReturn v
     <-> 200 <= res_status res <= 299 /\ parseResponse res = Fulfilled v)
  /\ (includes "application/json" ct = true -> parseResponse res = res_json res)
  /\ (includes "application/json" ct = false -> binary = true ->
      parseResponse res = mapSettled VBlob (res_blob res))
  /\ (includes "application/json" ct = false -> binary = false ->
      includes "multipart/form-data" ct = true ->
      parseResponse res = mapSettled VFormData (res_formData res))
  /\ (includes "application/json" ct = false -> binary = false ->
      includes "multipart/form-data" ct = false ->
      parseResponse res = mapSettled VStr (res_text res))
  /\ (forall v : JsVal,
        iteration parseJsonOrText timeoutMs attempts backoffMs retryOn attempt lastError p
        = StepReturn v
        <-> 200 <= res_status res <= 299 /\ parseJsonOrText res = Fulfilled v)
  /\ (includes "application/json" ct = true -> parseJsonOrText res = res_json res)
  /\ (includes "application/json" ct = false ->
      parseJsonOrText res = mapSettled VStr (res_text res)).
Proof.
  intros Hres ct binary.
  split; [intros v; exact (iteration_return_iff _ _ _ _ _ _ _ _ _ _ _ Hres)|].
  unfold parseResponse, parseJsonOrText, declaresJson. fold ct. fold binary.
  split; [now intros ->|].
  split; [now intros -> ->|].
  split; [now intros -> -> ->|].
  split; [now intros -> -> ->|].
  split; [intros v; exact (iteration_return_iff _ _ _ _ _ _ _ _ _ _ _ Hres)|].
  split; now intros ->.
Qed.

(** A PDF download on the first attempt, in both revisions. *)
Lemma C4_success_iff_2xx_and_decoded_witness :
  let res := mkResponse 200 "OK" (Some "application/pdf") (Rejected syntaxError)
               (Fulfilled "%PDF") (Fulfilled 7%nat) (Rejected syntaxError) in
  iteration parseResponse 15000 (NInt 1) 300 (list_to_set defaultRetryOn) 1 None
    (Settles 5 (Fulfilled res)) = StepReturn (VBlob 7%nat)
  /\ parseResponse res = mapSettled VBlob (res_blob res)
  /\ iteration parseJsonOrText 15000 (NInt 1) 300 (list_to_set defaultRetryOn) 1 None
       (Settles 5 (Fulfilled res)) = StepReturn (VStr "%PDF").
Proof.
  intros res.
  pose proof (C4_success_iff_2xx_and_decoded 15000 (NInt 1) 300
                (list_to_set defaultRetryOn) 1 None (Settles 5 (Fulfilled res)) 5 res eq_refl)
    as (Hiff & _ & Hblob & _ & _ & Hiff' & _).
  split; [|split].
  - apply Hiff. split; [simpl; lia | reflexivity].
  - apply Hblob; reflexivity.
  - apply Hiff'. split; [simpl; lia | reflexivity].
Defined.

(** ** The message of an [ApiError] *)

Lemma messageField_Some (isJson : bool) (data : option JsVal) (m : string) :
  messageField isJson data = Some m
  <-> isJson = true
      /\ exists fields, data = Some (VObj fields)
                        /\ objGet "message" fields = Some (VStr m).
Proof.
  unfold messageField. split.
  - destruct data as [d|]; [|discriminate].
    destruct isJson; [|discriminate].
    destruct d; simpl; try discriminate.
    destruct (bool_decide _); [|discriminate].
    destruct (objGet "message" fields) as [[]|] eqn:E; try discriminate.
    intros [= ->]. eauto.
  - intros [-> (fields & -> & E)]. simpl.
    rewrite bool_decide_eq_true_2 by (rewrite E; eauto).
    now rewrite E.
Qed.

(** C5, as stated, fails: an empty text body hides a non-empty status
    text (the message is then the synthesized one), and a body declared
    JSON that decodes to a string supplies the message although it is not
    an object with a [message] field. *)
Lemma C5_message_order_counterexample :
  request
    (mockRuntime true
       [Settles 5 (Fulfilled (textRes 500 "Internal Server Error" (Some "text/plain") ""))])
    client0 (emptyOptions "/x")
  = (Throws (newApiError "HTTP 500" 500 (Some (VStr ""))),
     [EvFetch "http://localhost/x" (mkRequestInit GET 0%nat None None None None)
        {[ "Content-Type" := "application/json" ]}])
  /\ fst (request
       (mockRuntime true
          [Settles 5 (Fulfilled (mkResponse 500 "Internal Server Error"
                                   (Some "application/json") (Fulfilled (VStr "oops"))
                                   (Fulfilled "oops-text") (Fulfilled 0%nat)
                                   (Fulfilled 0%nat)))])
       client0 (emptyOptions "/x"))
     = Throws (newApiError "oops" 500 (Some (VStr "oops"))).
Proof. vm_compute. split; reflexivity. Qed.

(** C5, amended: a non-success response that ends the call does so with an
    [ApiError] carrying the status and the best-effort payload (the JSON
    value when JSON is declared, else the text, absent when the read
    fails), whose message is: (1) the [message] field of the payload when
    JSON is declared, the payload is an object, and the field is a
    non-empty string; otherwise (2) the payload itself when it is a string
    (the text of a body not declared JSON, or a JSON string), unless it is
    empty, in which case the message is [HTTP {status}]; otherwise (3) the
    status text when it is not empty, and (4) [HTTP {status}] when it is. *)
Theorem C5_error_message (res : Response) :
  let data := errorData res in
  let field := messageField (declaresJson res) data in
  let synthesized := "HTTP " +:+ numToString (res_status res) in
  apiErrorOf res
  = ThrownObject (mkErrObj true true (Some "ApiError") (finalMessage res)
                    (Some (res_status res)) data)
  /\ (forall decode timeoutMs attempts backoffMs retryOn attempt lastError p t e,
        withTimeout p (Some timeoutMs) = Settles t (Fulfilled res) ->
        res_ok res = false ->
        iteration decode timeoutMs attempts backoffMs retryOn attempt lastError p
        = StepThrow e ->
        e = apiErrorOf res)
  /\ (forall m, field = Some m
        <-> declaresJson res = true
            /\ exists fields, data = Some (VObj fields)
                              /\ objGet "message" fields = Some (VStr m))
  /\ (forall m, field = Some m -> m <> "" -> finalMessage res = m)
  /\ (forall s, field = None \/ field = Some "" -> data = Some (VStr s) ->
        finalMessage res = if truthyStr s then s else synthesized)
  /\ (field = None \/ field = Some "" -> (forall s, data <> Some (VStr s)) ->
        finalMessage res
        = if truthyStr (res_statusText res) then res_statusText res else synthesized).
Proof.
  intros data field synthesized.
  split; [reflexivity|].
  split.
  { intros decode timeoutMs attempts backoffMs retryOn attempt lastError p t e Hres Hok.
    unfold iteration.
    rewrite (tryBlock_response decode timeoutMs attempts backoffMs retryOn
               attempt p t res Hres), Hok. simpl.
    destruct (_ && _); [discriminate|].
    unfold apiErrorOf. rewrite catchBlock_apiError. now intros [= <-]. }
  split; [intros m; apply messageField_Some|].
  unfold finalMessage. fold data. fold field. fold synthesized.
  unfold messageAfterFallback, falsyMessage.
  split; [|split].
  - intros m -> Hm. destruct m; [contradiction|]. reflexivity.
  - intros s [-> | ->] ->; reflexivity.
  - intros Hfield Hdata.
    assert (E : match data with
                | Some (VStr s) => s
                | _ => res_statusText res
                end = res_statusText res).
    { destruct data as [[]|]; try reflexivity. now specialize (Hdata s). }
    destruct Hfield as [-> | ->]; simpl; rewrite E; reflexivity.
Qed.

(** The error tests of the suite: message field, text body, and a JSON
    payload without message under an empty status text. *)
Lemma C5_error_message_witness :
  finalMessage (jsonRes 400 (VObj [("message", VStr "Bad stuff happened")]) "{}")
  = "Bad stuff happened"
  /\ finalMessage (textRes 500 "" (Some "text/plain") "Internal fail") = "Internal fail"
  /\ finalMessage (jsonRes 422 (VObj [("error", VStr "invalid")]) "{}") = "HTTP 422".
Proof.
  split; [|split].
  - refine (proj1 (proj2 (proj2 (proj2
      (C5_error_message (jsonRes 400 (VObj [("message", VStr "Bad stuff happened")]) "{}")))))
      "Bad stuff happened" _ _).
    + reflexivity.
    + discriminate.
  - refine (proj1 (proj2 (proj2 (proj2 (proj2
      (C5_error_message (textRes 500 "" (Some "text/plain") "Internal fail"))))))
      "Internal fail" _ _).
    + left. reflexivity.
    + reflexivity.
  - refine (proj2 (proj2 (proj2 (proj2 (proj2
      (C5_error_message (jsonRes 422 (VObj [("error", VStr "invalid")]) "{}"))))))
      _ _).
    + left. reflexivity.
    + intros s. discriminate.
Defined.

(** ** The building phase *)

Lemma isGET_false (m : HttpMethod) : m <> GET -> isGET m = false.
Proof. now destruct m. Qed.

Lemma deref_singleton (l : loc) (m : gmap string string) :
  deref {[ l := m ]} l = m.
Proof. unfold deref. now rewrite lookup_singleton_eq. Qed.

Lemma deref_alter_singleton (f : gmap string string -> gmap string string)
    (l : loc) (m : gmap string string) :
  deref (alter f l {[ l := m ]}) l = f m.
Proof. unfold deref. now rewrite lookup_alter_eq, lookup_singleton_eq. Qed.



(** The transport calls of a request all carry what the building phase
    produced. *)
Lemma requestWith_fetches decode rt c opts :
  allFetches
    (fun _ i hs =>
       i = fst (buildInit rt c opts)
       /\ hs = deref (snd (buildInit rt c opts)) (init_headers (fst (buildInit rt c opts))))
    (snd (requestWith decode rt c opts)).
Proof.
  unfold requestWith.
  destruct (buildUrl rt c (opt_path opts) (opt_query opts)) as [url|e]; simpl.
  - eapply Forall_impl; [apply attemptLoop_events|].
    intros [u i hs|d]; simpl; tauto.
  - constructor.
Qed.

(** The attempt count a call runs with is [NaN], an integer that is at
    least 1, or a non-integer above 1. *)
Lemma resolveAttempts_cases (retry : option RetryOptions) :
  resolveAttempts retry = NNaN
  \/ (exists z, resolveAttempts retry = NInt z /\ 1 <= z)
  \/ (exists below, resolveAttempts retry = NFrac below /\ 1 <= below).
Proof.
  unfold resolveAttempts.
  destruct (default (NInt 1) (retry ≫= retry_attempts)) as [z|below|]; simpl.
  - right. left. exists (Z.max 1 z). split; [reflexivity | lia].
  - destruct (1 <=? below) eqn:E.
    + right. right. exists below. apply Z.leb_le in E. auto.
    + right. left. exists 1. split; [reflexivity | lia].
  - now left.
Qed.

Lemma resolveAttempts_pos (retry : option RetryOptions) :
  resolveAttempts retry <> NNaN ->
  exists k : nat, iterations (resolveAttempts retry) = S k.
Proof.
  intros Hn.
  destruct (resolveAttempts_cases retry) as [H | [(z & -> & Hz) | (f & -> & Hf)]];
    [contradiction | |]; simpl.
  - exists (Z.to_nat (z - 1)). lia.
  - exists (Z.to_nat (f - 1)). lia.
Qed.

Lemma resolveAttempts_int (retry : option RetryOptions) (z : Z) :
  resolveAttempts retry = NInt z ->
  exists k : nat, iterations (resolveAttempts retry) = S k /\ Z.of_nat (S k) = z.
Proof.
  intros H.
  destruct (resolveAttempts_cases retry) as [E | [(z' & E & Hz) | (f & E & Hf)]];
    rewrite E in H; try discriminate.
  injection H as ->. rewrite E. simpl.
  exists (Z.to_nat (z - 1)). lia.
Qed.

(** A request whose URL could be built calls the transport first, unless
    its attempt count is [NaN]. *)
Lemma requestWith_starts decode rt c opts url :
  buildUrl rt c (opt_path opts) (opt_query opts) = Fulfilled url ->
  resolveAttempts (opt_retry opts) <> NNaN ->
  startsWithFetch (snd (requestWith decode rt c opts)) = true.
Proof.
  intros Hurl Hn. unfold requestWith. rewrite Hurl. simpl.
  destruct (resolveAttempts_pos (opt_retry opts) Hn) as (k & ->).
  apply attemptLoop_starts.
Qed.

(** For a verb other than GET and a body that [isMultipartLike] accepts,
    [init.body] is the caller's value itself and the header bag that
    [init.headers] points to has no key spelled [Content-Type]; every
    transport call of the request gets exactly these. *)
Lemma multipart_strips_exact_key
    (rt : Runtime) (c : ApiClient) (opts : RequestOptions) (body : JsVal) :
  default GET (opt_method opts) <> GET ->
  opt_body opts = Some body ->
  isMultipartLike rt body = true ->
  let ih := buildInit rt c opts in
  init_body (fst ih) = Some (BodyRaw body)
  /\ deref (snd ih) (init_headers (fst ih)) !! "Content-Type" = None
  /\ (forall decode,
        allFetches
          (fun _ i hs => init_body i = Some (BodyRaw body) /\ hs !! "Content-Type" = None)
          (snd (requestWith decode rt c opts))).
Proof.
  intros Hm Hb Hmp ih.
  assert (H1 : init_body (fst ih) = Some (BodyRaw body)
               /\ deref (snd ih) (init_headers (fst ih)) !! "Content-Type" = None).
  { unfold ih, buildInit. rewrite Hb, (isGET_false _ Hm), Hmp. simpl.
    rewrite deref_alter_singleton. split; [reflexivity|apply lookup_delete_eq]. }
  destruct H1 as [H1 H2].
  repeat split; [exact H1 | exact H2 |].
  intros decode.
  eapply Forall_impl; [apply requestWith_fetches|].
  intros [u i hs|d]; simpl; [|tauto].
  intros [-> ->]. split; [exact H1 | exact H2].
Qed.

(** C7: the code breaks the claim.  The strip deletes the key spelled
    [Content-Type] only: a form posted with the per-call header
    [content-type] reaches the transport with that header, so the bag the
    transport gets does have a [Content-Type] entry, as
    [new Headers(init.headers).has('Content-Type')] of the test suite reads
    it, while the same call with the header spelled [Content-Type] gets
    none. *)
Lemma C7_lowercase_content_type_is_sent :
  let rt := mockRuntime true [Settles 5 (Fulfilled (jsonRes 200 okTrue "{}"))] in
  let upload hs := mkRequestOptions "/upload" (Some POST) None (Some (VFormData 1%nat))
                     (Some (HRecord hs)) None None None None None in
  request rt client0 (upload {[ "content-type" := "application/json" ]})
  = (Returns okTrue,
     [EvFetch "http://localhost/upload"
        (mkRequestInit POST 0%nat None None None (Some (BodyRaw (VFormData 1%nat))))
        {[ "content-type" := "application/json" ]}])
  /\ headersHas "Content-Type" {[ "content-type" := "application/json" ]} = true
  /\ request rt client0 (upload {[ "Content-Type" := "application/json" ]})
     = (Returns okTrue,
        [EvFetch "http://localhost/upload"
           (mkRequestInit POST 0%nat None None None (Some (BodyRaw (VFormData 1%nat))))
           ∅])
  /\ headersHas "Content-Type" ∅ = false.
Proof. vm_compute. repeat split; reflexivity. Qed.

(** C8: with the verb GET (given or defaulted), [init.body] is never
    assigned, whatever body the caller supplied, and no transport call of
    the request carries a body. *)
Theorem C8_get_never_has_body (rt : Runtime) (c : ApiClient) (opts : RequestOptions) :
  default GET (opt_method opts) = GET ->
  init_body (fst (buildInit rt c opts)) = None
  /\ (forall decode,
        allFetches (fun _ i _ => init_body i = None)
                   (snd (requestWith decode rt c opts))).
Proof.
  intros Hm.
  assert (H1 : init_body (fst (buildInit rt c opts)) = None).
  { unfold buildInit. rewrite Hm. simpl. now destruct (opt_body opts). }
  split; [exact H1|].
  intros decode.
  eapply Forall_impl; [apply requestWith_fetches|].
  intros [u i hs|d]; simpl; [|tauto].
  now intros [-> _].
Qed.

(** A GET call that is given a JSON body all the same. *)
Lemma C8_get_never_has_body_witness :
  let opts := mkRequestOptions "/never-has-body" (Some GET) None
                (Some (VObj [("foo", VStr "bar")])) None None None None None None in
  let rt := mockRuntime true [Settles 5 (Fulfilled (jsonRes 200 okTrue "{}"))] in
  request rt client0 opts
  = (Returns okTrue,
     [EvFetch "http://localhost/never-has-body"
        (mkRequestInit GET 0%nat None None None None)
        {[ "Content-Type" := "application/json" ]}])
  /\ allFetches (fun _ i _ => init_body i = None) (snd (request rt client0 opts)).
Proof.
  intros opts rt. split.
  - vm_compute. reflexivity.
  - refine (proj2 (C8_get_never_has_body rt client0 opts _) parseJsonOrText).
    reflexivity.
Defined.

(** ** The attempt count *)

Lemma resolveAttempts_nonpositive (r : RetryOptions) (n : JsNum) :
  retry_attempts r = Some n -> nonPositive n = true ->
  resolveAttempts (Some r) = NInt 1 /\ resolveAttempts (Some (setAttempts 1 r)) = NInt 1.
Proof.
  intros Hr Hn. unfold resolveAttempts. simpl. rewrite Hr. simpl.
  destruct n as [z|below|]; simpl in *; try discriminate.
  - apply Z.leb_le in Hn. split; f_equal; lia.
  - apply Z.ltb_lt in Hn.
    replace (1 <=? below) with false by (symmetry; apply Z.leb_gt; lia).
    split; reflexivity.
Qed.

(** C9: a retry policy whose [attempts] is zero or negative (an integer or
    not) makes the call behave exactly as the same policy with
    [attempts = 1]; when the URL can be built (otherwise the call throws
    before the loop, under both policies), the transport is invoked exactly
    once; and the loop of such a call is left by a [return], a [throw] or a
    pending [await], never through its condition, so the statement after
    the loop is not reached. *)
Theorem C9_nonpositive_attempts
    (decode : Response -> Settled JsVal) (rt : Runtime) (c : ApiClient)
    (opts : RequestOptions) (r : RetryOptions) (n : JsNum) :
  opt_retry opts = Some r ->
  retry_attempts r = Some n ->
  nonPositive n = true ->
  requestWith decode rt c opts
  = requestWith decode rt c (withRetryOptions (setAttempts 1 r) opts)
  /\ (forall url, buildUrl rt c (opt_path opts) (opt_query opts) = Fulfilled url ->
        fetchCount (snd (requestWith decode rt c opts)) = 1%nat)
  /\ (forall url init h timeoutMs backoffMs retryOn lastError,
        fst (attemptLoop decode rt url init h timeoutMs (resolveAttempts (opt_retry opts))
               backoffMs retryOn (iterations (resolveAttempts (opt_retry opts))) 1 None)
        <> CLoopExit lastError).
Proof.
  intros Hretry Hr Hn.
  destruct (resolveAttempts_nonpositive r n Hr Hn) as [E1 E2].
  split; [|split].
  - unfold requestWith.
    destruct opts as [pa me qu bo he si ti ca ne re]; simpl in *. subst re.
    rewrite E1, E2. reflexivity.
  - intros url Hurl. unfold requestWith. rewrite Hurl, Hretry, E1. simpl.
    apply attemptLoop_fetchCount_one.
  - intros url init h timeoutMs backoffMs retryOn lastError.
    rewrite Hretry, E1. simpl iterations.
    apply (attemptLoop_no_exit _ _ _ _ _ _ _ _ _ 1); [reflexivity | lia].
Qed.

(** A policy with [attempts = 0] against a server that answers 500. *)
Lemma C9_nonpositive_attempts_witness :
  let rt := mockRuntime true [Settles 5 (Fulfilled (jsonRes 500 (VObj []) "{}"));
                              Settles 5 (Fulfilled (jsonRes 200 okTrue "{}"))] in
  let opts := withRetry 0 (emptyOptions "/x") in
  request rt client0 opts = request rt client0 (withRetry 1 (emptyOptions "/x"))
  /\ fetchCount (snd (request rt client0 opts)) = 1%nat.
Proof.
  intros rt opts.
  pose proof (C9_nonpositive_attempts parseJsonOrText rt client0 opts
                (mkRetryOptions (Some (NInt 0)) None None) (NInt 0) eq_refl eq_refl eq_refl)
    as (Hsame & Hone & _).
  split.
  - exact Hsame.
  - exact (Hone "http://localhost/x" eq_refl).
Defined.

(** What the attempt count does outside the integers: with [attempts]
    1.5 a 503 is followed by the wait and then by the statement after the
    loop, and with [NaN] no attempt is made at all. *)
Example fractional_and_nan_attempts :
  request (mockRuntime true [Settles 5 (Fulfilled (jsonRes 503 (VObj []) "{}"))]) client0
    (withRetryOptions (mkRetryOptions (Some (NFrac 1)) None None) (emptyOptions "/x"))
  = (Throws (newError "Unknown API error"),
     [EvFetch "http://localhost/x" (mkRequestInit GET 0%nat None None None None)
        {[ "Content-Type" := "application/json" ]};
      EvSleep 300])
  /\ request (mockRuntime true [Settles 5 (Fulfilled (jsonRes 200 okTrue "{}"))]) client0
       (withRetryOptions (mkRetryOptions (Some NNaN) None None) (emptyOptions "/x"))
     = (Throws (newError "Unknown API error"), []).
Proof. vm_compute. split; reflexivity. Qed.

(** ** The shared bearer token *)




(* ===================================================================== *)
(** * Further properties of the request pipeline *)
(* ===================================================================== *)

(** ** The shape of a run *)

Section RunFacts.
Variable decode : Response -> Settled JsVal.
Variable rt : Runtime.
Variable url : string.
Variable init : RequestInit.
Variable h : gmap loc (gmap string string).
Variable timeoutMs : Z.
Variable attempts : JsNum.
Variable backoffMs : Z.
Variable retryOn : gset Z.

Local Abbreviation loop := (attemptLoop decode rt url init h timeoutMs attempts backoffMs retryOn).
Local Abbreviation try_ := (tryBlock decode timeoutMs attempts backoffMs retryOn).
Local Abbreviation iter_ := (iteration decode timeoutMs attempts backoffMs retryOn).
Local Abbreviation catch_ := (catchBlock attempts backoffMs).
Local Abbreviation fetch_ := (doFetch rt url init h).
Local Abbreviation ev := (EvFetch url init (deref h (init_headers init))).

Lemma retryTrace_cons (a : Z) (k : nat) :
  retryTrace ev backoffMs a (S (S k))
  = ev :: EvSleep (backoffMs * 2 ^ (a - 1)) :: retryTrace ev backoffMs (a + 1) (S k).
Proof. reflexivity. Qed.

(** A run with [n] iterations left either leaves the loop through its
    condition, or performs [S k0 <= n] transport calls separated by the
    back-off waits, its result being the one of the [try] block of the last
    of them; when that block throws, the [catch] block rethrows. *)
Lemma attemptLoop_shape n : forall a le,
  (exists le', fst (loop n a le) = CLoopExit le')
  \/ exists k0 : nat,
       (k0 < n)%nat
       /\ snd (loop n a le) = retryTrace ev backoffMs a (S k0)
       /\ endsWith (try_ (a + Z.of_nat k0) (fetch_ (a + Z.of_nat k0))) (fst (loop n a le))
       /\ (forall e, try_ (a + Z.of_nat k0) (fetch_ (a + Z.of_nat k0)) = TryThrow e ->
             catch_ (a + Z.of_nat k0) e = StepThrow e).
Proof.
  induction n as [|n IH]; intros a le; [left; now exists le|].
  assert (Hnext : forall le' d, d = backoffDelay backoffMs a ->
            (exists l, fst (loop n (a + 1) le') = CLoopExit l)
            \/ exists k0 : nat,
                 (k0 < S n)%nat
                 /\ ev :: EvSleep d :: snd (loop n (a + 1) le')
                    = retryTrace ev backoffMs a (S k0)
                 /\ endsWith (try_ (a + Z.of_nat k0) (fetch_ (a + Z.of_nat k0)))
                             (fst (loop n (a + 1) le'))
                 /\ (forall e, try_ (a + Z.of_nat k0) (fetch_ (a + Z.of_nat k0)) = TryThrow e ->
                       catch_ (a + Z.of_nat k0) e = StepThrow e)).
  { intros le' d ->.
    destruct (IH (a + 1) le') as [Hexit | (k0 & Hk & Htr & Hend & Hcatch)]; [now left|].
    right. exists (S k0). split; [lia|].
    replace (a + Z.of_nat (S k0)) with (a + 1 + Z.of_nat k0) by lia.
    split; [|split; [exact Hend | exact Hcatch]].
    rewrite retryTrace_cons, Htr. reflexivity. }
  rewrite attemptLoop_S. unfold iteration.
  destruct (try_ a (fetch_ a)) as [v|err|d|] eqn:E.
  - right. exists O. rewrite Z.add_0_r, E. simpl.
    repeat split; [lia | discriminate].
  - unfold catchBlock.
    destruct (ltNum a attempts && negb (isApiErrorLike err) && negb (isAbortError err))
      eqn:Ec.
    + simpl. apply Hnext. reflexivity.
    + right. exists O. rewrite Z.add_0_r, E. simpl.
      repeat split; [lia|].
      intros e [= <-]. unfold catchBlock. now rewrite Ec.
  - simpl. apply Hnext. now apply tryBlock_continue_inv in E.
  - right. exists O. rewrite Z.add_0_r, E. simpl.
    repeat split; [lia | discriminate].
Qed.

Lemma fetchCount_retryTrace (a : Z) (k : nat) :
  fetchCount (retryTrace ev backoffMs a k) = k.
Proof.
  revert a. induction k as [|k IH]; intros a; [reflexivity|].
  destruct k as [|k]; [reflexivity|].
  rewrite retryTrace_cons. cbn [fetchCount]. now rewrite IH.
Qed.

(** What the [try] block throws is the transport's rejection (or the
    guard's), the error built from a non-success response, or the
    decoder's rejection: nothing is wrapped. *)
Lemma tryBlock_throw_inv a p e :
  try_ a p = TryThrow e ->
  (exists t, withTimeout p (Some timeoutMs) = Settles t (Rejected e))
  \/ (exists t res,
        withTimeout p (Some timeoutMs) = Settles t (Fulfilled res)
        /\ ((res_ok res = false /\ e = apiErrorOf res)
            \/ (res_ok res = true /\ decode res = Rejected e))).
Proof.
  unfold tryBlock.
  destruct (withTimeout p (Some timeoutMs)) as [t [res|err]|]; try discriminate.
  - destruct (res_ok res) eqn:Hok; simpl.
    + destruct (decode res) as [v|err] eqn:Hd; [discriminate|].
      intros [= <-]. right. exists t, res. auto.
    + destruct (_ && _); [discriminate|].
      intros [= <-]. right. exists t, res. auto.
  - intros [= <-]. left. now exists t.
Qed.

Lemma tryBlock_return_inv a p v :
  try_ a p = TryReturn v ->
  exists t res,
    withTimeout p (Some timeoutMs) = Settles t (Fulfilled res)
    /\ res_ok res = true /\ decode res = Fulfilled v.
Proof.
  unfold tryBlock.
  destruct (withTimeout p (Some timeoutMs)) as [t [res|err]|]; try discriminate.
  destruct (res_ok res) eqn:Hok; simpl.
  - destruct (decode res) as [w|err] eqn:Hd; [|discriminate].
    intros [= <-]. exists t, res. auto.
  - destruct (_ && _); discriminate.
Qed.

End RunFacts.

(** The same at the level of a request whose URL could be built. *)
Lemma requestWith_shape decode rt c opts url :
  buildUrl rt c (opt_path opts) (opt_query opts) = Fulfilled url ->
  let init := fst (buildInit rt c opts) in
  let hs := deref (snd (buildInit rt c opts)) (init_headers init) in
  let attempts := resolveAttempts (opt_retry opts) in
  let backoff := resolveBackoffMs (opt_retry opts) in
  let last k0 := tryBlock decode (resolveTimeoutMs opts) attempts backoff
                   (resolveRetryOn (opt_retry opts)) (Z.of_nat (S k0))
                   (fetch rt k0 url init hs) in
  (exists le, fst (requestWith decode rt c opts) = Throws (trailingThrow le)
              /\ fst (attemptLoop decode rt url init (snd (buildInit rt c opts))
                        (resolveTimeoutMs opts) attempts backoff
                        (resolveRetryOn (opt_retry opts)) (iterations attempts) 1 None)
                 = CLoopExit le)
  \/ exists (k0 : nat) (cmp : Completion),
       (S k0 <= iterations attempts)%nat
       /\ requestWith decode rt c opts
          = (outcomeOf cmp, retryTrace (EvFetch url init hs) backoff 1 (S k0))
       /\ endsWith (last k0) cmp
       /\ (forall e, last k0 = TryThrow e ->
             catchBlock attempts backoff (Z.of_nat (S k0)) e = StepThrow e).
Proof.
  intros Hurl init hs attempts backoff last.
  destruct (attemptLoop_shape decode rt url init (snd (buildInit rt c opts))
              (resolveTimeoutMs opts) attempts backoff (resolveRetryOn (opt_retry opts))
              (iterations attempts) 1 None) as [[le Hexit] | (k0 & Hk & Htr & Hend & Hcatch)].
  - left. exists le. split; [|exact Hexit].
    unfold requestWith. rewrite Hurl. cbv zeta. fold attempts. fold init. fold backoff.
    cbn [fst]. now rewrite Hexit.
  - right. unfold doFetch in Hend, Hcatch.
    replace (Z.to_nat (1 + Z.of_nat k0 - 1)) with k0 in Hend, Hcatch by lia.
    replace (1 + Z.of_nat k0) with (Z.of_nat (S k0)) in Hend, Hcatch by lia.
    exists k0, (fst (attemptLoop decode rt url init (snd (buildInit rt c opts))
                       (resolveTimeoutMs opts) attempts backoff
                       (resolveRetryOn (opt_retry opts)) (iterations attempts) 1 None)).
    split; [lia|]. split; [|split; [exact Hend | exact Hcatch]].
    unfold requestWith. rewrite Hurl.
    cbv zeta. fold attempts. fold init. fold backoff. now rewrite Htr.
Qed.

(** For an integer attempt count the loop is not left through its
    condition, so the second case holds. *)
Lemma requestWith_shape_int decode rt c opts url (z : Z) :
  buildUrl rt c (opt_path opts) (opt_query opts) = Fulfilled url ->
  resolveAttempts (opt_retry opts) = NInt z ->
  let init := fst (buildInit rt c opts) in
  let hs := deref (snd (buildInit rt c opts)) (init_headers init) in
  let backoff := resolveBackoffMs (opt_retry opts) in
  let last k0 := tryBlock decode (resolveTimeoutMs opts) (NInt z) backoff
                   (resolveRetryOn (opt_retry opts)) (Z.of_nat (S k0))
                   (fetch rt k0 url init hs) in
  exists (k0 : nat) (cmp : Completion),
    Z.of_nat (S k0) <= z
    /\ requestWith decode rt c opts
       = (outcomeOf cmp, retryTrace (EvFetch url init hs) backoff 1 (S k0))
    /\ endsWith (last k0) cmp
    /\ (forall e, last k0 = TryThrow e ->
          catchBlock (NInt z) backoff (Z.of_nat (S k0)) e = StepThrow e).
Proof.
  intros Hurl Hz init hs backoff last.
  destruct (requestWith_shape decode rt c opts url Hurl)
    as [(le & _ & Hexit) | (k0 & cmp & Hk & Hreq & Hend & Hcatch)].
  - exfalso. destruct (resolveAttempts_int _ _ Hz) as (k & Hk & Hkz).
    rewrite Hk in Hexit. rewrite Hz in Hexit.
    revert Hexit. apply attemptLoop_no_exit with (z := z); [reflexivity | lia].
  - rewrite Hz in Hk, Hend, Hcatch. simpl in Hk.
    exists k0, cmp. split; [lia|]. auto.
Qed.

Lemma outcomeOf_endsWith_throw r cmp e :
  endsWith r cmp -> outcomeOf cmp = Throws e -> r = TryThrow e.
Proof.
  destruct r as [w|e'|d|]; simpl; intros H1 H2; try contradiction;
    subst cmp; simpl in H2; try discriminate; congruence.
Qed.

Lemma outcomeOf_endsWith_return r cmp v :
  endsWith r cmp -> outcomeOf cmp = Returns v -> r = TryReturn v.
Proof.
  destruct r as [w|e'|d|]; simpl; intros H1 H2; try contradiction;
    subst cmp; simpl in H2; try discriminate; congruence.
Qed.

(** X1: a request whose URL could be built and whose attempt count is an
    integer performs between one and [attempts] transport calls, all with
    the same URL, options and headers, and between two consecutive calls it
    waits [backoffMs * 2^(i-1)] after the [i]-th one; nothing else is in
    its trace. *)
Theorem X1_trace_shape
    (decode : Response -> Settled JsVal) (rt : Runtime) (c : ApiClient)
    (opts : RequestOptions) (url : string) (z : Z) :
  buildUrl rt c (opt_path opts) (opt_query opts) = Fulfilled url ->
  resolveAttempts (opt_retry opts) = NInt z ->
  let init := fst (buildInit rt c opts) in
  let hs := deref (snd (buildInit rt c opts)) (init_headers init) in
  exists k : nat,
    (1 <= k)%nat
    /\ Z.of_nat k <= z
    /\ snd (requestWith decode rt c opts)
       = retryTrace (EvFetch url init hs) (resolveBackoffMs (opt_retry opts)) 1 k
    /\ fetchCount (snd (requestWith decode rt c opts)) = k.
Proof.
  intros Hurl Hz init hs.
  destruct (requestWith_shape_int decode rt c opts url z Hurl Hz)
    as (k0 & cmp & Hk & Hreq & _).
  exists (S k0). rewrite Hreq. cbn [snd].
  repeat split; [lia | exact Hk | apply fetchCount_retryTrace].
Qed.

(** Three attempts against a server that stays on 503. *)
Lemma X1_trace_shape_witness :
  let res := jsonRes 503 (VObj []) "{}" in
  let rt := mockRuntime true [Settles 5 (Fulfilled res); Settles 5 (Fulfilled res);
                              Settles 5 (Fulfilled res)] in
  let ev := EvFetch "http://localhost/x" (mkRequestInit GET 0%nat None None None None)
              {[ "Content-Type" := "application/json" ]} in
  snd (request rt client0 (withRetry 3 (emptyOptions "/x")))
  = [ev; EvSleep 300; ev; EvSleep 600; ev]
  /\ exists k : nat,
       (1 <= k)%nat /\ Z.of_nat k <= 3
       /\ snd (request rt client0 (withRetry 3 (emptyOptions "/x")))
          = retryTrace ev 300 1 k
       /\ fetchCount (snd (request rt client0 (withRetry 3 (emptyOptions "/x")))) = k.
Proof.
  intros res rt ev. split.
  - vm_compute. reflexivity.
  - exact (X1_trace_shape parseJsonOrText rt client0 (withRetry 3 (emptyOptions "/x"))
             "http://localhost/x" 3 eq_refl eq_refl).
Defined.

(** X2: when a request whose attempt count is an integer throws after its
    URL was built, the error is the failure of its last transport call,
    unwrapped: the rejection of the guarded transport promise, or the
    [ApiError] built from the non-success response received last, or the
    rejection of the decoder of a success response. *)
Theorem X2_thrown_error_is_last_failure
    (decode : Response -> Settled JsVal) (rt : Runtime) (c : ApiClient)
    (opts : RequestOptions) (url : string) (z : Z) (e : Thrown) :
  buildUrl rt c (opt_path opts) (opt_query opts) = Fulfilled url ->
  resolveAttempts (opt_retry opts) = NInt z ->
  fst (requestWith decode rt c opts) = Throws e ->
  let init := fst (buildInit rt c opts) in
  let hs := deref (snd (buildInit rt c opts)) (init_headers init) in
  let k := fetchCount (snd (requestWith decode rt c opts)) in
  let guarded := withTimeout (fetch rt (k - 1) url init hs) (Some (resolveTimeoutMs opts)) in
  (exists t, guarded = Settles t (Rejected e))
  \/ (exists t res,
        guarded = Settles t (Fulfilled res)
        /\ ((res_ok res = false /\ e = apiErrorOf res)
            \/ (res_ok res = true /\ decode res = Rejected e))).
Proof.
  intros Hurl Hz Hthrow init hs k guarded.
  destruct (requestWith_shape_int decode rt c opts url z Hurl Hz)
    as (k0 & cmp & Hk & Hreq & Hend & _).
  subst guarded k. rewrite Hreq in *. cbn [fst] in Hthrow. cbn [snd].
  rewrite fetchCount_retryTrace.
  replace (S k0 - 1)%nat with k0 by lia.
  apply (outcomeOf_endsWith_throw _ _ _ Hend) in Hthrow.
  exact (tryBlock_throw_inv _ _ _ _ _ _ _ _ Hthrow).
Qed.

(** A 503 and then a 404: the error thrown is built from the 404. *)
Lemma X2_thrown_error_is_last_failure_witness :
  let res404 := jsonRes 404 (VObj [("error", VStr "nope")]) "{}" in
  let rt := mockRuntime true [Settles 5 (Fulfilled (jsonRes 503 (VObj []) "{}"));
                              Settles 5 (Fulfilled res404)] in
  let opts := withRetry 3 (emptyOptions "/x") in
  let init := fst (buildInit rt client0 opts) in
  let hs := deref (snd (buildInit rt client0 opts)) (init_headers init) in
  let k := fetchCount (snd (request rt client0 opts)) in
  let guarded := withTimeout (fetch rt (k - 1) "http://localhost/x" init hs) (Some 15000) in
  (exists t, guarded = Settles t (Rejected (apiErrorOf res404)))
  \/ (exists t res,
        guarded = Settles t (Fulfilled res)
        /\ ((res_ok res = false /\ apiErrorOf res404 = apiErrorOf res)
            \/ (res_ok res = true /\ parseJsonOrText res = Rejected (apiErrorOf res404)))).
Proof.
  intros res404 rt opts.
  exact (X2_thrown_error_is_last_failure parseJsonOrText rt client0 opts
           "http://localhost/x" 3 (apiErrorOf res404) eq_refl eq_refl eq_refl).
Defined.

(** X3: a request returns a value only as the decoding of a response with
    a status in 200..299, and that response is the one of its last
    transport call. *)
Theorem X3_returned_value_is_decoded_success
    (decode : Response -> Settled JsVal) (rt : Runtime) (c : ApiClient)
    (opts : RequestOptions) (v : JsVal) :
  fst (requestWith decode rt c opts) = Returns v ->
  let init := fst (buildInit rt c opts) in
  let hs := deref (snd (buildInit rt c opts)) (init_headers init) in
  let k := fetchCount (snd (requestWith decode rt c opts)) in
  exists url t res,
    buildUrl rt c (opt_path opts) (opt_query opts) = Fulfilled url
    /\ withTimeout (fetch rt (k - 1) url init hs) (Some (resolveTimeoutMs opts))
       = Settles t (Fulfilled res)
    /\ 200 <= res_status res <= 299
    /\ decode res = Fulfilled v.
Proof.
  intros Hret init hs k.
  destruct (buildUrl rt c (opt_path opts) (opt_query opts)) as [url|e] eqn:Hurl.
  - destruct (requestWith_shape decode rt c opts url Hurl)
      as [(le & Hexit & _) | (k0 & cmp & Hk & Hreq & Hend & _)];
      [rewrite Hexit in Hret; discriminate Hret|].
    subst k. rewrite Hreq in *. cbn [fst] in Hret. cbn [snd].
    rewrite fetchCount_retryTrace.
    replace (S k0 - 1)%nat with k0 by lia.
    apply (outcomeOf_endsWith_return _ _ _ Hend) in Hret.
    apply tryBlock_return_inv in Hret.
    destruct Hret as (t & res & Hg & Hok & Hd).
    exists url, t, res. rewrite <- res_ok_range. auto.
  - unfold requestWith in Hret. rewrite Hurl in Hret. discriminate Hret.
Qed.

(** The retry test of the suite: 500, then 200 with [{ ok: true }]. *)
Lemma X3_returned_value_is_decoded_success_witness :
  let rt := mockRuntime true
              [Settles 5 (Fulfilled (jsonRes 500 (VObj [("error", VStr "server busy")]) "{}"));
               Settles 5 (Fulfilled (jsonRes 200 okTrue "{}"))] in
  let opts := withRetry 2 (emptyOptions "/sometimes-works") in
  let init := fst (buildInit rt client0 opts) in
  let hs := deref (snd (buildInit rt client0 opts)) (init_headers init) in
  exists url t res,
    buildUrl rt client0 (opt_path opts) (opt_query opts) = Fulfilled url
    /\ withTimeout (fetch rt (fetchCount (snd (request rt client0 opts)) - 1) url init hs)
         (Some (resolveTimeoutMs opts))
       = Settles t (Fulfilled res)
    /\ 200 <= res_status res <= 299
    /\ parseJsonOrText res = Fulfilled okTrue.
Proof.
  intros rt opts.
  exact (X3_returned_value_is_decoded_success parseJsonOrText rt client0 opts okTrue eq_refl).
Defined.



(** X5: against a transport that answers every call with the same
    non-success response whose status is in the retry set, a request whose
    attempt count is an integer performs exactly [attempts] transport
    calls, with the back-off waits in between, and then throws the
    [ApiError] of that response. *)
Theorem X5_retry_exhaustion_on_status
    (decode : Response -> Settled JsVal) (rt : Runtime) (c : ApiClient)
    (opts : RequestOptions) (url : string) (z : Z) (res : Response) :
  buildUrl rt c (opt_path opts) (opt_query opts) = Fulfilled url ->
  resolveAttempts (opt_retry opts) = NInt z ->
  let init := fst (buildInit rt c opts) in
  let hs := deref (snd (buildInit rt c opts)) (init_headers init) in
  (forall n, exists t,
     withTimeout (fetch rt n url init hs) (Some (resolveTimeoutMs opts))
     = Settles t (Fulfilled res)) ->
  res_ok res = false ->
  res_status res ∈ resolveRetryOn (opt_retry opts) ->
  requestWith decode rt c opts
  = (Throws (apiErrorOf res),
     retryTrace (EvFetch url init hs) (resolveBackoffMs (opt_retry opts)) 1 (Z.to_nat z)).
Proof.
  intros Hurl Hz init hs Hall Hok Hin.
  destruct (requestWith_shape_int decode rt c opts url z Hurl Hz)
    as (k0 & cmp & Hk & Hreq & Hend & _).
  fold init in Hend, Hreq. fold hs in Hend, Hreq.
  destruct (Hall k0) as [t Ht].
  rewrite (tryBlock_response _ _ _ _ _ _ _ t res Ht), Hok in Hend. simpl in Hend.
  rewrite bool_decide_eq_true_2, andb_true_r in Hend by exact Hin.
  destruct (Z.of_nat (S k0) <? z) eqn:E;
    simpl in Hend; [contradiction|].
  apply Z.ltb_ge in E. subst cmp. rewrite Hreq. simpl outcomeOf.
  replace (Z.to_nat z) with (S k0) by lia.
  reflexivity.
Qed.

(** A server that stays on 503, three attempts. *)
Lemma X5_retry_exhaustion_on_status_witness :
  let res := jsonRes 503 (VObj []) "{}" in
  let rt := mkRuntime true "" true true (fun path origin => Some (origin +:+ path))
              (fun u _ _ => u) (fun _ _ _ _ => Settles 5 (Fulfilled res)) in
  let ev := EvFetch "http://localhost/x" (mkRequestInit GET 0%nat None None None None)
              {[ "Content-Type" := "application/json" ]} in
  request rt client0 (withRetry 3 (emptyOptions "/x"))
  = (Throws (newApiError "HTTP 503" 503 (Some (VObj []))),
     [ev; EvSleep 300; ev; EvSleep 600; ev]).
Proof.
  intros res rt ev.
  refine (X5_retry_exhaustion_on_status parseJsonOrText rt client0
            (withRetry 3 (emptyOptions "/x")) "http://localhost/x" 3 res
            eq_refl eq_refl _ _ _).
  - intros n. exists 5. reflexivity.
  - reflexivity.
  - vm_compute. reflexivity.
Defined.

(** X6: when the [try] block of an attempt that the call performs throws
    an error that is neither shaped like an [ApiError] nor named
    [AbortError] (a network failure, a timeout, an undecodable success
    body), then, if the attempt index is below [attempts], the call waits
    [backoffMs * 2^(attempt-1)] and goes back to the loop condition,
    issuing the next attempt when [attempt + 1 <= attempts], which is
    always so for an integer attempt count; otherwise it throws that very
    error. *)
Theorem X6_network_error_retry
    (decode : Response -> Settled JsVal) (rt : Runtime) (url : string)
    (init : RequestInit) (h : gmap loc (gmap string string))
    (timeoutMs : Z) (attempts : JsNum) (backoffMs : Z) (retryOn : gset Z)
    (remaining : nat) (attempt : Z) (lastError : option Thrown)
    (pre : list Event) (err : Thrown) :
  reaches decode rt url init h timeoutMs attempts backoffMs retryOn
    (S remaining) attempt lastError pre ->
  tryBlock decode timeoutMs attempts backoffMs retryOn attempt
    (doFetch rt url init h attempt) = TryThrow err ->
  isApiErrorLike err = false ->
  isAbortError err = false ->
  let run := attemptLoop decode rt url init h timeoutMs attempts backoffMs retryOn in
  let ev := EvFetch url init (deref h (init_headers init)) in
  (ltNum attempt attempts = true ->
     let rest := run remaining (attempt + 1) (Some err) in
     run (iterations attempts) 1 None
     = (fst rest, (pre ++ ev :: EvSleep (backoffMs * 2 ^ (attempt - 1)) :: snd rest)%list)
     /\ (leNum (attempt + 1) attempts = true -> startsWithFetch (snd rest) = true)
     /\ (forall z : Z, attempts = NInt z -> startsWithFetch (snd rest) = true))
  /\ (ltNum attempt attempts = false ->
     run (iterations attempts) 1 None = (CThrow err, (pre ++ [ev])%list)).
Proof.
  intros Hreach Htry Hapi Habort run ev.
  pose proof (reaches_inv _ _ _ _ _ _ _ _ _ _ _ _ _ Hreach) as [Ha Hrem].
  pose proof (reaches_run _ _ _ _ _ _ _ _ _ _ _ _ _ Hreach) as Hrun.
  split.
  - intros Hlt rest.
    assert (Hnext : leNum (attempt + 1) attempts = true ->
                    startsWithFetch (snd rest) = true).
    { intros Hle. apply leNum_iterations in Hle; [|lia].
      destruct remaining as [|k]; [lia|]. apply attemptLoop_starts. }
    split; [|split].
    + unfold run. rewrite Hrun, attemptLoop_S. unfold iteration. rewrite Htry.
      unfold catchBlock. rewrite Hapi, Habort, Hlt. reflexivity.
    + exact Hnext.
    + intros z Hz. apply Hnext. exact (ltNum_leNum_succ _ _ _ Hz Hlt).
  - intros Hge. unfold run. rewrite Hrun, attemptLoop_S. unfold iteration. rewrite Htry.
    unfold catchBlock. rewrite Hge. reflexivity.
Qed.

(** The network test of the suite: a rejection, then 200. *)
Lemma X6_network_error_retry_witness :
  let down := newError "network down" in
  let rt := mockRuntime true [Settles 1 (Rejected down);
                              Settles 5 (Fulfilled (jsonRes 200 okTrue "{}"))] in
  let init := mkRequestInit GET 0%nat None None None None in
  let ev := EvFetch "http://localhost/eventual-success" init ∅ in
  attemptLoop parseJsonOrText rt "http://localhost/eventual-success" init ∅ 15000 (NInt 2)
    300 (list_to_set defaultRetryOn) 2%nat 1 None
  = (CReturn okTrue, [ev; EvSleep 300; ev]).
Proof.
  intros down rt init ev.
  refine (proj1 (proj1 (X6_network_error_retry parseJsonOrText rt
            "http://localhost/eventual-success" init ∅ 15000 (NInt 2) 300
            (list_to_set defaultRetryOn) 1%nat 1 None [] down _ _ _ _) _)).
  - exact (reaches_start parseJsonOrText rt "http://localhost/eventual-success" init ∅
             15000 (NInt 2) 300 (list_to_set defaultRetryOn)).
  - reflexivity.
  - reflexivity.
  - reflexivity.
  - reflexivity.
Defined.

(** X7: without an [attempts] setting (no [retry] option, or one that
    leaves [attempts] out) nothing is retried: a request whose URL could be
    built calls the transport exactly once, whatever the transport does. *)
Theorem X7_single_attempt_by_default
    (decode : Response -> Settled JsVal) (rt : Runtime) (c : ApiClient)
    (opts : RequestOptions) (url : string) :
  opt_retry opts ≫= retry_attempts = None ->
  buildUrl rt c (opt_path opts) (opt_query opts) = Fulfilled url ->
  fetchCount (snd (requestWith decode rt c opts)) = 1%nat
  /\ snd (requestWith decode rt c opts)
     = [EvFetch url (fst (buildInit rt c opts))
          (deref (snd (buildInit rt c opts)) (init_headers (fst (buildInit rt c opts))))].
Proof.
  intros Hretry Hurl.
  assert (Hone : resolveAttempts (opt_retry opts) = NInt 1).
  { unfold resolveAttempts. rewrite Hretry. reflexivity. }
  destruct (requestWith_shape_int decode rt c opts url 1 Hurl Hone)
    as (k0 & cmp & Hk & Hreq & _).
  assert (k0 = O) by lia. subst k0.
  rewrite Hreq. split; reflexivity.
Qed.

(** A 503 under the default policy: one call, although 503 is in the
    default retry set. *)
Lemma X7_single_attempt_by_default_witness :
  fetchCount (snd (request
    (mockRuntime true [Settles 5 (Fulfilled (jsonRes 503 (VObj []) "{}"));
                       Settles 5 (Fulfilled (jsonRes 200 okTrue "{}"))])
    client0 (emptyOptions "/x"))) = 1%nat.
Proof.
  exact (proj1 (X7_single_attempt_by_default parseJsonOrText
           (mockRuntime true [Settles 5 (Fulfilled (jsonRes 503 (VObj []) "{}"));
                              Settles 5 (Fulfilled (jsonRes 200 okTrue "{}"))])
           client0 (emptyOptions "/x") "http://localhost/x" eq_refl eq_refl)).
Defined.

(** ** URL building *)

(** X8: a request whose attempt count is not [NaN] performs no transport
    call exactly when its URL cannot be built; a request whose URL cannot
    be built throws the [TypeError] of the URL constructor without any
    transport call, whatever the retry policy. *)
Theorem X8_no_transport_call_iff_invalid_url
    (decode : Response -> Settled JsVal) (rt : Runtime) (c : ApiClient)
    (opts : RequestOptions) :
  (resolveAttempts (opt_retry opts) <> NNaN ->
   (snd (requestWith decode rt c opts) = []
    <-> buildUrl rt c (opt_path opts) (opt_query opts) = Rejected invalidUrlError))
  /\ (forall e, buildUrl rt c (opt_path opts) (opt_query opts) = Rejected e ->
        requestWith decode rt c opts = (Throws invalidUrlError, [])).
Proof.
  assert (Hrej : forall e, buildUrl rt c (opt_path opts) (opt_query opts) = Rejected e ->
                           e = invalidUrlError).
  { intros e. unfold buildUrl. destruct (URL_new rt _ _); [discriminate|]. now intros [= <-]. }
  split.
  - intros Hn.
    destruct (buildUrl rt c (opt_path opts) (opt_query opts)) as [url|e] eqn:Hurl.
    + pose proof (requestWith_starts decode rt c opts url Hurl Hn) as Hs.
      split; intros H; [rewrite H in Hs|]; discriminate.
    + rewrite (Hrej e eq_refl). unfold requestWith. rewrite Hurl. simpl.
      split; reflexivity.
  - intros e He. rewrite (Hrej e He) in He.
    unfold requestWith. rewrite He. reflexivity.
Qed.

(** A URL constructor that rejects everything, three attempts asked for. *)
Lemma X8_no_transport_call_iff_invalid_url_witness :
  let rt := mkRuntime true "" true true (fun _ _ => None) (fun u _ _ => u)
              (fun _ _ _ _ => NeverSettles) in
  request rt client0 (withRetry 3 (emptyOptions "/x")) = (Throws invalidUrlError, []).
Proof.
  intros rt.
  exact (proj2 (X8_no_transport_call_iff_invalid_url parseJsonOrText rt client0
                  (withRetry 3 (emptyOptions "/x"))) invalidUrlError eq_refl).
Defined.

Lemma fold_query_present (rt : Runtime) (q : list (string * option QueryVal)) :
  forall url,
    fold_left
      (fun u kv =>
         match snd kv with
         | Some v => searchParams_set rt u (fst kv) (queryValToString v)
         | None => u
         end) q url
    = fold_left
        (fun u kv =>
           match snd kv with
           | Some v => searchParams_set rt u (fst kv) (queryValToString v)
           | None => u
           end) (presentEntries q) url.
Proof.
  unfold presentEntries.
  induction q as [|[k [v|]] q IH]; intros url.
  - reflexivity.
  - rewrite filter_cons_True by (simpl; eauto). simpl. apply IH.
  - rewrite filter_cons_False by (simpl; intros [? ?]; discriminate). simpl. apply IH.
Qed.

(** X9: entries of the query whose value is [null] or [undefined] leave no
    mark on the URL: the URL built is the one built from the entries that
    carry a value, and a query with no such entry gives the URL of a call
    without query. *)
Theorem X9_absent_query_values_skipped
    (rt : Runtime) (c : ApiClient) (path : string)
    (q : list (string * option QueryVal)) :
  buildUrl rt c path (Some q) = buildUrl rt c path (Some (presentEntries q))
  /\ (presentEntries q = [] -> buildUrl rt c path (Some q) = buildUrl rt c path None).
Proof.
  assert (H : buildUrl rt c path (Some q) = buildUrl rt c path (Some (presentEntries q))).
  { unfold buildUrl. destruct (URL_new rt _ _) as [url|]; [|reflexivity].
    now rewrite fold_query_present. }
  split; [exact H|].
  intros Hq. rewrite H, Hq. unfold buildUrl.
  now destruct (URL_new rt _ _).
Qed.

(** The query of the suite: two present values, two absent ones. *)
Lemma X9_absent_query_values_skipped_witness :
  buildUrl (mockRuntime false []) client0 "/search"
    (Some [("skipNull", None); ("skipUndef", None)])
  = Fulfilled "https://app.example.com/search".
Proof.
  rewrite (proj2 (X9_absent_query_values_skipped (mockRuntime false []) client0 "/search"
                    [("skipNull", None); ("skipUndef", None)]) eq_refl).
  reflexivity.
Defined.

(** X10: the leading slash of a path is optional, and an unconfigured
    client builds its URLs as a client configured with the placeholder
    origin does: [http://localhost] on the server, the page's own origin
    in the browser. *)
Theorem X10_buildUrl_normalisation
    (rt : Runtime) (c : ApiClient) (path : string)
    (q : option (list (string * option QueryVal))) :
  (startsWith "/" path = false ->
   buildUrl rt c path q = buildUrl rt c ("/" +:+ path) q)
  /\ (baseUrl c = "" -> isServer rt = true ->
      buildUrl rt c path q = buildUrl rt (newApiClient "http://localhost") path q)
  /\ (baseUrl c = "" -> isServer rt = false -> window_location_origin rt <> "" ->
      buildUrl rt c path q
      = buildUrl rt (newApiClient (window_location_origin rt)) path q).
Proof.
  split; [|split].
  - intros Hp. unfold buildUrl. rewrite Hp.
    assert (E : startsWith "/" ("/" +:+ path) = true) by (destruct path; reflexivity).
    rewrite E. reflexivity.
  - intros Hb Hs. unfold buildUrl. rewrite Hb, Hs. reflexivity.
  - intros Hb Hs Hw. unfold buildUrl. rewrite Hb, Hs. simpl.
    destruct (window_location_origin rt); [contradiction|]. reflexivity.
Qed.

(** The fallback tests of the suite: [health] on the server and in the
    browser. *)
Lemma X10_buildUrl_normalisation_witness :
  buildUrl (mockRuntime true []) client0 "health" None
  = Fulfilled "http://localhost/health"
  /\ buildUrl (mockRuntime false []) client0 "/health" None
     = Fulfilled "https://app.example.com/health".
Proof.
  split.
  - rewrite (proj1 (X10_buildUrl_normalisation (mockRuntime true []) client0 "health" None)
               eq_refl).
    reflexivity.
  - rewrite (proj2 (proj2 (X10_buildUrl_normalisation (mockRuntime false []) client0
                             "/health" None)) eq_refl eq_refl ltac:(discriminate)).
    reflexivity.
Defined.

(** ** Body encoding and headers *)

Lemma buildInit_method rt c opts :
  init_method (fst (buildInit rt c opts)) = default GET (opt_method opts).
Proof.
  unfold buildInit.
  destruct (opt_body opts) as [b|]; [|reflexivity].
  destruct (negb _); [|reflexivity].
  destruct (isMultipartLike rt b); [reflexivity|].
  now destruct (bool_decide _).
Qed.

(** X11: for a verb other than GET and a body that is not one of the
    binary containers, the body is sent as its JSON text exactly when the
    merged headers hold [Content-Type: application/json] (an exact match:
    any other value, or none, sends the body as it is), and the merged
    headers are sent unchanged. *)
Theorem X11_json_or_raw_body
    (rt : Runtime) (c : ApiClient) (opts : RequestOptions) (body : JsVal) :
  default GET (opt_method opts) <> GET ->
  opt_body opts = Some body ->
  isMultipartLike rt body = false ->
  let ih := buildInit rt c opts in
  let merged := mergeHeaders c (opt_headers opts) in
  (merged !! "Content-Type" = Some "application/json" ->
     init_body (fst ih) = Some (BodyJsonText body))
  /\ (merged !! "Content-Type" <> Some "application/json" ->
     init_body (fst ih) = Some (BodyRaw body))
  /\ deref (snd ih) (init_headers (fst ih)) = merged.
Proof.
  intros Hm Hb Hmp ih merged.
  unfold ih, buildInit. rewrite Hb, (isGET_false _ Hm), Hmp. simpl.
  rewrite deref_singleton. fold merged.
  split; [|split].
  - intros H. now rewrite bool_decide_eq_true_2 by exact H.
  - intros H. now rewrite bool_decide_eq_false_2 by exact H.
  - destruct (bool_decide _); simpl; apply deref_singleton.
Qed.

(** The encoding tests of the suite: a JSON body under the default
    headers, a text body under [text/plain]; and a JSON content type with
    a charset parameter is not an exact match. *)
Lemma X11_json_or_raw_body_witness :
  let rt := mockRuntime true [] in
  let foo := VObj [("foo", VStr "bar")] in
  let post b hs := mkRequestOptions "/x" (Some POST) None (Some b) hs
                     None None None None None in
  init_body (fst (buildInit rt client0 (post foo None))) = Some (BodyJsonText foo)
  /\ init_body (fst (buildInit rt client0
       (post (VStr "hello world") (Some (HRecord {[ "Content-Type" := "text/plain" ]})))))
     = Some (BodyRaw (VStr "hello world"))
  /\ init_body (fst (buildInit rt client0
       (post foo (Some (HRecord {[ "Content-Type" := "application/json; charset=utf-8" ]})))))
     = Some (BodyRaw foo).
Proof.
  intros rt foo post. split; [|split].
  - refine (proj1 (X11_json_or_raw_body rt client0 (post foo None) foo _ _ _) _);
      [discriminate | reflexivity | reflexivity | reflexivity].
  - refine (proj1 (proj2 (X11_json_or_raw_body rt client0
              (post (VStr "hello world") (Some (HRecord {[ "Content-Type" := "text/plain" ]})))
              (VStr "hello world") _ _ _)) _);
      [discriminate | reflexivity | reflexivity | vm_compute; discriminate].
  - refine (proj1 (proj2 (X11_json_or_raw_body rt client0
              (post foo (Some (HRecord {[ "Content-Type" := "application/json; charset=utf-8" ]})))
              foo _ _ _)) _);
      [discriminate | reflexivity | reflexivity | vm_compute; discriminate].
Defined.

(** X12: when the caller supplies no body, or the verb is GET, nothing is
    attached (no empty-object placeholder) and the merged headers are sent
    as they are, [Content-Type] included, even if the body supplied to a
    GET is a form. *)
Theorem X12_no_body_keeps_headers
    (rt : Runtime) (c : ApiClient) (opts : RequestOptions) :
  opt_body opts = None \/ default GET (opt_method opts) = GET ->
  let ih := buildInit rt c opts in
  init_body (fst ih) = None
  /\ deref (snd ih) (init_headers (fst ih)) = mergeHeaders c (opt_headers opts).
Proof.
  intros H ih. unfold ih, buildInit.
  destruct H as [-> | ->].
  - simpl. split; [reflexivity | apply deref_singleton].
  - destruct (opt_body opts); simpl; (split; [reflexivity | apply deref_singleton]).
Qed.

(** The suite's POST without body, and a GET that is handed a form. *)
Lemma X12_no_body_keeps_headers_witness :
  let rt := mockRuntime true [] in
  let sent opts := deref (snd (buildInit rt client0 opts))
                     (init_headers (fst (buildInit rt client0 opts))) in
  let postNoBody := mkRequestOptions "/no-body" (Some POST) None None None
                      None None None None None in
  let getForm := mkRequestOptions "/x" None None (Some (VFormData 1%nat)) None
                   None None None None None in
  (init_body (fst (buildInit rt client0 postNoBody)) = None
   /\ sent postNoBody = {[ "Content-Type" := "application/json" ]})
  /\ (init_body (fst (buildInit rt client0 getForm)) = None
      /\ sent getForm = {[ "Content-Type" := "application/json" ]}).
Proof.
  intros rt sent postNoBody getForm. split.
  - exact (X12_no_body_keeps_headers rt client0 postNoBody (or_introl eq_refl)).
  - exact (X12_no_body_keeps_headers rt client0 getForm (or_intror eq_refl)).
Defined.



(** ** The convenience wrappers *)

Lemma requestWith_method_body decode rt c opts :
  allFetches
    (fun _ i _ =>
       init_method i = default GET (opt_method opts)
       /\ init_body i = init_body (fst (buildInit rt c opts)))
    (snd (requestWith decode rt c opts)).
Proof.
  eapply Forall_impl; [apply requestWith_fetches|].
  intros [u i hs|d]; simpl; [|tauto].
  intros [-> _]. split; [apply buildInit_method | reflexivity].
Qed.

(** X14: when the options bag has no [method] and no [body] key (as its
    declared type demands), every transport call made through a wrapper
    carries the wrapper's verb; [get] and [delete] attach no body, and
    [post], [put] and [patch] called without a body attach none either. *)
Theorem X14_wrapper_verbs
    (decode : Response -> Settled JsVal) (rt : Runtime) (c : ApiClient)
    (path : string) (query : option (list (string * option QueryVal)))
    (body : option JsVal) (opts : option CallOptions) :
  opts ≫= co_method = None ->
  opts ≫= co_body = None ->
  allFetches (fun _ i _ => init_method i = GET /\ init_body i = None)
    (snd (get decode rt c path query opts))
  /\ allFetches (fun _ i _ => init_method i = DELETE /\ init_body i = None)
       (snd (delete_ decode rt c path opts))
  /\ allFetches (fun _ i _ => init_method i = POST /\ (body = None -> init_body i = None))
       (snd (post decode rt c path body opts))
  /\ allFetches (fun _ i _ => init_method i = PUT /\ (body = None -> init_body i = None))
       (snd (put decode rt c path body opts))
  /\ allFetches (fun _ i _ => init_method i = PATCH /\ (body = None -> init_body i = None))
       (snd (patch decode rt c path body opts)).
Proof.
  intros Hm Hb.
  unfold get, delete_, post, put, patch.
  repeat split;
    (eapply Forall_impl; [apply requestWith_method_body|]);
    intros [u i hs|d]; simpl; try tauto;
    rewrite Hm; intros [-> ->]; (split; [reflexivity|]);
    unfold buildInit; simpl; rewrite Hm, Hb; simpl;
    try reflexivity; intros ->; reflexivity.
Qed.

(** A [delete] with a retry policy in its bag, against a 503 and a 204. *)
Lemma X14_wrapper_verbs_witness :
  let rt := mockRuntime true
              [Settles 5 (Fulfilled (jsonRes 503 (VObj []) "{}"));
               Settles 5 (Fulfilled (textRes 204 "" None ""))] in
  let opts := Some (mkCallOptions None None None None None None None None None
                      (Some (mkRetryOptions (Some (NInt 2)) None None))) in
  fetchCount (snd (delete_ parseJsonOrText rt client0 "/rooms/1" opts)) = 2%nat
  /\ allFetches (fun _ i _ => init_method i = DELETE /\ init_body i = None)
       (snd (delete_ parseJsonOrText rt client0 "/rooms/1" opts)).
Proof.
  intros rt opts. split.
  - vm_compute. reflexivity.
  - exact (proj1 (proj2 (X14_wrapper_verbs parseJsonOrText rt client0 "/rooms/1" None None
                           opts eq_refl eq_refl))).
Defined.

(** X15: on a client whose default [Content-Type] is [application/json]
    (the only default the constructor sets), [post], [put] and [patch] with
    a body that is not a binary container, called with a bag that has no
    [method], [body] or [headers] key, send the JSON text of the body. *)
Theorem X15_wrappers_send_json_by_default
    (decode : Response -> Settled JsVal) (rt : Runtime) (baseUrl : string)
    (token : option string) (path : string) (body : JsVal) (opts : option CallOptions) :
  isMultipartLike rt body = false ->
  opts ≫= co_method = None ->
  opts ≫= co_body = None ->
  opts ≫= co_headers = None ->
  let c := setAuth token (newApiClient baseUrl) in
  let sendsJson tr :=
    allFetches (fun _ i hs => init_body i = Some (BodyJsonText body)
                              /\ hs !! "Content-Type" = Some "application/json") tr in
  sendsJson (snd (post decode rt c path (Some body) opts))
  /\ sendsJson (snd (put decode rt c path (Some body) opts))
  /\ sendsJson (snd (patch decode rt c path (Some body) opts)).
Proof.
  intros Hmp Hm Hb Hh c sendsJson.
  assert (H : forall m, m <> GET ->
            sendsJson (snd (requestWith decode rt c
                              (spreadOptions path m None (Some body) opts)))).
  { intros m Hne. unfold sendsJson.
    eapply Forall_impl; [apply requestWith_fetches|].
    intros [u i hs|d]; simpl; [|tauto].
    intros [-> ->]. unfold buildInit. simpl.
    rewrite Hm, Hb, Hh. simpl. rewrite (isGET_false _ Hne), Hmp. simpl.
    assert (E : mergeHeaders c None !! "Content-Type" = Some "application/json").
    { unfold mergeHeaders, c. simpl.
      rewrite lookup_union_r by apply lookup_empty.
      rewrite lookup_union_r.
      - apply lookup_singleton_eq.
      - unfold authHeaders. simpl. destruct token as [[|a t]|]; simpl;
          try apply lookup_empty.
        now apply lookup_singleton_ne. }
    rewrite deref_singleton.
    rewrite bool_decide_eq_true_2 by exact E.
    simpl. rewrite deref_singleton. split; [reflexivity | exact E]. }
  unfold post, put, patch. repeat split; apply H; discriminate.
Qed.

(** The suite's [api.post('/json', { foo: 'bar' })]. *)
Lemma X15_wrappers_send_json_by_default_witness :
  let foo := VObj [("foo", VStr "bar")] in
  post parseJsonOrText (mockRuntime true [Settles 5 (Fulfilled (jsonRes 200 okTrue "{}"))])
    client0 "/json" (Some foo) None
  = (Returns okTrue,
     [EvFetch "http://localhost/json"
        (mkRequestInit POST 0%nat None None None (Some (BodyJsonText foo)))
        {[ "Content-Type" := "application/json" ]}])
  /\ allFetches (fun _ i hs => init_body i = Some (BodyJsonText foo)
                               /\ hs !! "Content-Type" = Some "application/json")
       (snd (post parseJsonOrText
               (mockRuntime true [Settles 5 (Fulfilled (jsonRes 200 okTrue "{}"))])
               (setAuth None (newApiClient "")) "/json" (Some foo) None)).
Proof.
  intros foo. split.
  - vm_compute. reflexivity.
  - exact (proj1 (X15_wrappers_send_json_by_default parseJsonOrText
             (mockRuntime true [Settles 5 (Fulfilled (jsonRes 200 okTrue "{}"))])
             "" None "/json" foo None eq_refl eq_refl eq_refl eq_refl)).
Defined.

(** ** The singleton *)

Lemma clientStep_keeps (c : ApiClient) (ops : list ClientOp) :
  exists c', fold_left clientStep ops (Some c) = Some c'
             /\ baseUrl c' = baseUrl c /\ defaultHeaders c' = defaultHeaders c.
Proof.
  revert c. induction ops as [|op ops IH]; intros c.
  - exists c. auto.
  - destruct op as [rt e1 e2|token]; simpl.
    + apply IH.
    + destruct (IH (setAuth token c)) as (c' & H1 & H2 & H3).
      exists c'. auto.
Qed.

(** X16: the base URL is resolved once, at the first access of the
    singleton, from the runtime and environment of that moment; no later
    access, under whatever runtime or environment, and no [setAuth]
    changes it or the default headers, and after a [setAuth] the token is
    the one given last. *)
Theorem X16_singleton_base_url_fixed
    (rt : Runtime) (API_BASE_URL NEXT_PUBLIC_API_BASE_URL : option string)
    (ops : list ClientOp) (token : option string) :
  (exists c,
     fold_left clientStep ops
       (clientStep None (OpInstance rt API_BASE_URL NEXT_PUBLIC_API_BASE_URL)) = Some c
     /\ baseUrl c = resolveBaseUrl (isServer rt) API_BASE_URL NEXT_PUBLIC_API_BASE_URL
     /\ defaultHeaders c = {[ "Content-Type" := "application/json" ]})
  /\ (exists c,
        fold_left clientStep (ops ++ [OpSetAuth token])
          (clientStep None (OpInstance rt API_BASE_URL NEXT_PUBLIC_API_BASE_URL)) = Some c
        /\ authToken c = token).
Proof.
  simpl.
  destruct (clientStep_keeps (instance rt API_BASE_URL NEXT_PUBLIC_API_BASE_URL) ops)
    as (c & Hc & Hb & Hd).
  split.
  - exists c. auto.
  - exists (setAuth token c). rewrite fold_left_app, Hc. auto.
Qed.

(** ** Base URL values *)

Lemma dropLeading_id (p : ascii -> bool) (s : string) (a : ascii) :
  firstChar s = Some a -> p a = false -> dropLeading p s = s.
Proof. destruct s; simpl; [discriminate|]. now intros [= ->] ->. Qed.

Lemma dropTrailing_id (p : ascii -> bool) (s : string) (a : ascii) :
  lastChar s = Some a -> p a = false -> dropTrailing p s = s.
Proof.
  induction s as [|b s IH]; simpl; [discriminate|].
  destruct s as [|b' s'].
  - intros [= ->] ->. reflexivity.
  - intros Hl Hp. rewrite (IH Hl Hp). reflexivity.
Qed.

(** X17: a configured value that is already clean (not empty, no white
    space at either end, no trailing slash) is the base URL as it stands,
    in the context it is meant for. *)
Theorem X17_clean_base_url_unchanged
    (s : string) (other : option string) (a z : ascii) :
  firstChar s = Some a -> isTrimSpace a = false ->
  lastChar s = Some z -> isTrimSpace z = false -> z <> "/"%char ->
  resolveBaseUrl true (Some s) other = s
  /\ resolveBaseUrl false other (Some s) = s.
Proof.
  intros Hf Ha Hl Hz Hslash.
  assert (Ht : trim s = s).
  { unfold trim. rewrite (dropLeading_id _ _ _ Hf Ha). exact (dropTrailing_id _ _ _ Hl Hz). }
  assert (Hs : stripTrailingSlashes s = s).
  { apply (dropTrailing_id _ _ _ Hl). unfold isSlash. now apply Ascii.eqb_neq. }
  unfold resolveBaseUrl. simpl. rewrite Ht.
  destruct s; [discriminate|]. simpl truthyStr. cbv iota. auto.
Qed.

(** The environment tests of the suite. *)
Lemma X17_clean_base_url_unchanged_witness :
  resolveBaseUrl true (Some "https://api.example.com") None = "https://api.example.com"
  /\ resolveBaseUrl false None (Some "https://public.example.com")
     = "https://public.example.com".
Proof.
  split.
  - exact (proj1 (X17_clean_base_url_unchanged "https://api.example.com" None "h" "m"
                    eq_refl eq_refl eq_refl eq_refl ltac:(discriminate))).
  - exact (proj2 (X17_clean_base_url_unchanged "https://public.example.com" None "h" "m"
                    eq_refl eq_refl eq_refl eq_refl ltac:(discriminate))).
Defined.

(** X18: the later revision of [resolveBaseUrl] returns what the earlier
    one returns for every context and environment; it writes at most one
    warning, and none exactly when the result is empty (same origin) or
    starts with [http://] or [https://]. *)
Theorem X18_validation_only_warns
    (server : bool) (s p : option string) :
  let r := resolveBaseUrl_validated server s p in
  fst r = resolveBaseUrl server s p
  /\ (length (snd r) <= 1)%nat
  /\ (snd r = [] <-> fst r = "" \/ hasHttpScheme (fst r) = true).
Proof.
  intros r. unfold r, resolveBaseUrl_validated, resolveBaseUrl.
  set (cleaned := stripTrailingSlashes _).
  destruct cleaned as [|a t] eqn:E.
  - simpl. repeat split; auto.
  - destruct (hasHttpScheme (String a t)) eqn:Hh;
      cbn [truthyStr andb negb fst snd length].
    + repeat split; auto.
    + repeat split; auto; try discriminate.
      intros [H | H]; [discriminate H | congruence].
Qed.

(** X19: the log line of [setAuth] in the later revision never shows the
    token: it is the same for any two non-empty tokens, and nothing is
    logged at all outside development; the client is updated as by the
    earlier [setAuth]. *)
Theorem X19_setAuth_log_hides_token
    (debug : bool) (t1 t2 : string) (token : option string) (c : ApiClient) :
  t1 <> "" -> t2 <> "" ->
  snd (setAuth_logged debug (Some t1) c) = snd (setAuth_logged debug (Some t2) c)
  /\ snd (setAuth_logged false token c) = []
  /\ fst (setAuth_logged debug token c) = setAuth token c.
Proof.
  intros H1 H2. unfold setAuth_logged. simpl.
  destruct t1; [contradiction|]. destruct t2; [contradiction|].
  auto.
Qed.

Lemma X19_setAuth_log_hides_token_witness :
  snd (setAuth_logged true (Some "shhh-token") client0)
  = snd (setAuth_logged true (Some "other") client0).
Proof.
  exact (proj1 (X19_setAuth_log_hides_token true "shhh-token" "other" None client0
                  ltac:(discriminate) ltac:(discriminate))).
Defined.

(** ** Content types and unreadable error bodies *)

Lemma prefix_append (n post : string) : String.prefix n (n +:+ post) = true.
Proof.
  induction n as [|a n IH].
  - str_simpl. now destruct post.
  - str_simpl. simpl. destruct (ascii_dec a a) as [_|Hne]; [exact IH | now elim Hne].
Qed.

Lemma includes_head (needle s : string) :
  String.prefix needle s = true -> includes needle s = true.
Proof. intros H. destruct s; cbn [includes]; now rewrite H. Qed.

Lemma includes_append (needle pre post : string) :
  includes needle (pre +:+ needle +:+ post) = true.
Proof.
  induction pre as [|a pre IH].
  - str_simpl. apply includes_head, prefix_append.
  - str_simpl. cbn [includes]. rewrite IH. apply orb_true_r.
Qed.

Lemma contentTypeOf_Some (res : Response) (ct : string) :
  res_contentType res = Some ct -> contentTypeOf res = ct.
Proof. unfold contentTypeOf. intros ->. now destruct ct. Qed.

(** X20: a content type that contains [application/json] anywhere, for
    instance followed by a charset parameter, selects the JSON reader on
    the success path of both revisions and on the error path; a response
    without content type is read as text on all three. *)
Theorem X20_content_type_matching (res : Response) (pre post : string) :
  (res_contentType res = Some (pre +:+ "application/json" +:+ post) ->
     parseResponse res = res_json res
     /\ parseJsonOrText res = res_json res
     /\ errorData res = catchUndefined (res_json res))
  /\ (res_contentType res = None ->
     parseResponse res = mapSettled VStr (res_text res)
     /\ parseJsonOrText res = mapSettled VStr (res_text res)
     /\ errorData res = VStr <$> catchUndefined (res_text res)).
Proof.
  split.
  - intros H. apply contentTypeOf_Some in H.
    unfold parseResponse, parseJsonOrText, errorData, declaresJson.
    rewrite H, includes_append. auto.
  - intros H.
    unfold parseResponse, parseJsonOrText, errorData, declaresJson, contentTypeOf.
    rewrite H. auto.
Qed.

Lemma X20_content_type_matching_witness :
  let res := mkResponse 200 "OK" (Some "application/json; charset=utf-8")
               (Fulfilled okTrue) (Fulfilled "{}") (Fulfilled 0%nat) (Fulfilled 0%nat) in
  parseResponse res = Fulfilled okTrue
  /\ parseResponse (mkResponse 200 "OK" None (Fulfilled okTrue) (Fulfilled "{}")
                      (Fulfilled 0%nat) (Fulfilled 0%nat))
     = Fulfilled (VStr "{}").
Proof.
  intros res. split.
  - exact (proj1 (proj1 (X20_content_type_matching res "" "; charset=utf-8") eq_refl)).
  - exact (proj1 (proj2 (X20_content_type_matching
                           (mkResponse 200 "OK" None (Fulfilled okTrue) (Fulfilled "{}")
                              (Fulfilled 0%nat) (Fulfilled 0%nat)) "" "") eq_refl)).
Defined.

(** X21: when the body of a non-success response cannot be read (the JSON
    reader rejects for a declared-JSON body, or the text reader rejects
    otherwise), the reader's error is swallowed: an attempt that ends the
    call on that response throws an [ApiError] with the status, no payload,
    and the status text as message, or [HTTP {status}] when the status text
    is empty. *)
Theorem X21_unreadable_error_body
    (res : Response) (e : Thrown) :
  (declaresJson res = true /\ res_json res = Rejected e)
  \/ (declaresJson res = false /\ res_text res = Rejected e) ->
  let message :=
    if truthyStr (res_statusText res) then res_statusText res
    else "HTTP " +:+ numToString (res_status res) in
  apiErrorOf res = newApiError message (res_status res) None
  /\ (forall decode timeoutMs attempts backoffMs retryOn attempt lastError p t thrown,
        withTimeout p (Some timeoutMs) = Settles t (Fulfilled res) ->
        res_ok res = false ->
        iteration decode timeoutMs attempts backoffMs retryOn attempt lastError p
        = StepThrow thrown ->
        thrown = newApiError message (res_status res) None).
Proof.
  intros H message.
  assert (Hd : errorData res = None).
  { unfold errorData. destruct H as [[-> ->] | [-> ->]]; reflexivity. }
  assert (Ha : apiErrorOf res = newApiError message (res_status res) None).
  { unfold apiErrorOf, finalMessage. rewrite Hd. reflexivity. }
  split; [exact Ha|].
  intros decode timeoutMs attempts backoffMs retryOn attempt lastError p t thrown Hres Hok.
  unfold iteration.
  rewrite (tryBlock_response decode timeoutMs attempts backoffMs retryOn
             attempt p t res Hres), Hok. simpl.
  destruct (_ && _); [discriminate|].
  rewrite Ha, catchBlock_apiError. now intros [= <-].
Qed.

(** A 502 that declares JSON and carries an HTML page. *)
Lemma X21_unreadable_error_body_witness :
  let res := textRes 502 "Bad Gateway" (Some "application/json") "<html>" in
  fst (request (mockRuntime true [Settles 5 (Fulfilled res)]) client0 (emptyOptions "/x"))
  = Throws (newApiError "Bad Gateway" 502 None)
  /\ apiErrorOf res = newApiError "Bad Gateway" 502 None.
Proof.
  intros res. split.
  - vm_compute. reflexivity.
  - exact (proj1 (X21_unreadable_error_body res syntaxError
                    (or_introl (conj eq_refl eq_refl)))).
Defined.
